(** * stock_tracker.py: holdings store and portfolio valuation

    A shallow embedding of [stock_tracker.py] and the properties of its
    weighted cost-basis accumulation ([add_stock]) and of its valuation
    pass ([view_portfolio]), and of the menu loop [main], which is run
    with a bound on the number of its turns.

    Modelling conventions.
    - Python floats are idealised as exact rationals ([Qc]): rounding,
      infinities and NaN are outside the model.  An [int] is an integer
      of any size, which [float] refuses with [OverflowError] when it is
      too large for a double.  Division is partial, as in Python: a zero
      divisor raises [ZeroDivisionError].
    - Strings are ASCII; [str.upper] and [str.strip] act on the ASCII
      letters and the ASCII white space.
    - The data file is represented by what [json.load] makes of it: a
      value, a [JSONDecodeError], or one of the other exceptions of
      reading ([UnicodeDecodeError] when its bytes are no text,
      [RecursionError] when its brackets are nested too deep,
      [ValueError] when an integer has more digits than the interpreter
      converts).  What [json.dump] writes is what [json.load] reads
      back.  Failures of the file system and of the memory are not
      modelled.
    - The built-ins [str] and [float] on dynamically typed values and
      the answers of the quote service are parameters ([Runtime]).
    - Effects (the data file, the console, the requests for live prices)
      are threaded through an explicit world state; exceptions are
      values of the [result] type.
    - What is printed is kept as data ([line]); the layout of the
      columns and the rounding to two decimals are not modelled. *)

From Stdlib Require Import QArith Qcanon Lqa String Ascii List.
From stdpp Require Import base decidable option list numbers strings gmap.
Import ListNotations.

Local Open Scope string_scope.
Local Open Scope list_scope.
Local Open Scope Qc_scope.

#[local] Set Warnings "-clear-no-such-hyp,-register-all".

(* ================================================================= *)
(** ** Numbers *)

Abbreviation num := Qc (only parsing).

(** The rational with integer value [z]. *)
Definition of_Z (z : Z) : num := Q2Qc (inject_Z z).

(** Python truth value of a number: [0] is false. *)
Definition truthy (x : num) : bool := negb (bool_decide (x = 0)).

(* ================================================================= *)
(** ** Strings: [str.upper] and [str.strip] *)

Definition is_lower (c : ascii) : bool :=
  let n := N_of_ascii c in (97 <=? n)%N && (n <=? 122)%N.

Definition upper_char (c : ascii) : ascii :=
  if is_lower c then ascii_of_N (N_of_ascii c - 32) else c.

(** White space in the ASCII range: TAB, LF, VT, FF, CR, FS, GS, RS, US
    and the space. *)
Definition is_space (c : ascii) : bool :=
  let n := N_of_ascii c in
  ((9 <=? n)%N && (n <=? 13)%N) || ((28 <=? n)%N && (n <=? 32)%N).

Fixpoint upper (s : string) : string :=
  match s with
  | EmptyString => EmptyString
  | String c s' => String (upper_char c) (upper s')
  end.

Fixpoint lstrip (s : string) : string :=
  match s with
  | EmptyString => EmptyString
  | String c s' => if is_space c then lstrip s' else s
  end.

Fixpoint rstrip (s : string) : string :=
  match s with
  | EmptyString => EmptyString
  | String c s' =>
      match rstrip s' with
      | EmptyString => if is_space c then EmptyString else String c EmptyString
      | t => String c t
      end
  end.

Definition strip (s : string) : string := rstrip (lstrip s).

(** Python truth value of a string: the empty string is false. *)
Definition nonempty (s : string) : bool :=
  match s with EmptyString => false | _ => true end.

(* ================================================================= *)
(** ** Python values, exceptions and the built-ins the program uses *)

(** What [json.load] returns: [None], booleans, [int]s ([PInt]),
    [float]s ([PNum]), strings, lists, and dicts as association lists,
    in which a key is looked up from the front. *)
Inductive pyval :=
| PNone
| PBool (b : bool)
| PInt (z : Z)
| PNum (x : num)
| PStr (s : string)
| PList (l : list pyval)
| PDict (d : list (string * pyval)).

Inductive exn :=
| ValueError | TypeError | AttributeError | OverflowError
| UnicodeDecodeError | RecursionError | EOFError | ZeroDivisionError.

Inductive result (A : Type) :=
| Ok (a : A)
| Raise (e : exn).
Arguments Ok {A} a.
Arguments Raise {A} e.

(** The interpreter and the network, as far as the program relies on
    them. *)
Class Runtime := {
  (** [str(v)] for a value [v] that is not a [str]. *)
  py_repr : pyval → string;
  (** [float(s)] for a string: [None] stands for [ValueError]. *)
  float_of_str : string → option num;
  (** The last price yfinance gives for a ticker, after the given
      earlier calls of [get_live_price]; [None] stands for every
      failure (no module, no network, unknown ticker, empty history). *)
  yf_last_price : list string → string → option num
}.

(** [d.get(k)] *)
Fixpoint py_get (k : string) (d : list (string * pyval)) : option pyval :=
  match d with
  | [] => None
  | (k', v) :: d' => if bool_decide (k' = k) then Some v else py_get k d'
  end.

(** Truth value of a Python object. *)
Definition py_truth (v : pyval) : bool :=
  match v with
  | PNone => false
  | PBool b => b
  | PInt z => negb (bool_decide (z = 0%Z))
  | PNum x => truthy x
  | PStr s => nonempty s
  | PList l => match l with [] => false | _ => true end
  | PDict d => match d with [] => false | _ => true end
  end.

(** [v or d] *)
Definition py_or (v d : pyval) : pyval := if py_truth v then v else d.

(** [str(v)] *)
Definition py_str `{Runtime} (v : pyval) : string :=
  match v with PStr s => s | _ => py_repr v end.

(** The least magnitude of an [int] that is too large to convert to
    [float]: half-way between the largest double, [2^1024 - 2^971], and
    [2^1024], where rounding to the nearest double leaves the range. *)
Definition float_limit : Z := 2 ^ 1024 - 2 ^ 970.

#[global] Opaque float_limit.

(** [float(v)] *)
Definition py_float `{Runtime} (v : pyval) : result num :=
  match v with
  | PNum x => Ok x
  | PInt z =>
      if bool_decide (Z.abs z < float_limit)%Z then Ok (of_Z z)
      else Raise OverflowError
  | PBool b => Ok (if b then of_Z 1 else of_Z 0)
  | PStr s =>
      match float_of_str s with Some x => Ok x | None => Raise ValueError end
  | PNone | PList _ | PDict _ => Raise TypeError
  end.

(** [a / b] *)
Definition py_div (a b : num) : result num :=
  if bool_decide (b = 0) then Raise ZeroDivisionError else Ok (a / b).

(* ================================================================= *)
(** ** Holdings *)

(** A row of the portfolio once [load_portfolio] has normalised it: the
    keys ["symbol"], ["shares"] and ["price"] (the cost basis per share)
    hold a [str] and two [float]s; [extra] holds the other keys of the
    dict, which the program carries along. *)
Record Row := {
  symbol : string;
  shares : num;
  price : num;
  extra : list (string * pyval)
}.

Definition set_shares (x : num) (r : Row) : Row :=
  {| symbol := symbol r; shares := x; price := price r; extra := extra r |}.

Definition set_price (x : num) (r : Row) : Row :=
  {| symbol := symbol r; shares := shares r; price := x; extra := extra r |}.

Definition core_key (k : string) : bool :=
  bool_decide (k = "symbol") || bool_decide (k = "shares") || bool_decide (k = "price").

(** The dict of a row, as [json.dump] receives it. *)
Definition row_dict (r : Row) : pyval :=
  PDict (("symbol", PStr (symbol r)) :: ("shares", PNum (shares r))
         :: ("price", PNum (price r)) :: extra r).

(* ================================================================= *)
(** ** The world: data file, console, quote requests *)

(** What [json.load] raises on a file, when it is not
    [JSONDecodeError]: the bytes are no text in the encoding of [open],
    the brackets are nested deeper than the parser goes, or an integer
    has more digits than [int] converts. *)
Inductive read_error :=
| NotText
| TooDeep
| TooManyDigits.

Definition read_exn (r : read_error) : exn :=
  match r with
  | NotText => UnicodeDecodeError
  | TooDeep => RecursionError
  | TooManyDigits => ValueError
  end.

(** [stock_data.json], by what reading it gives: no file, an exception
    that is not [JSONDecodeError], text that [json.load] rejects with
    [JSONDecodeError], or the decoded value. *)
Inductive file_state :=
| NoFile
| Unreadable (r : read_error)
| BadJson
| Json (v : pyval).

(** How a live price is shown in a row. *)
Inductive display :=
| Dollars (x : num)
| NA.

(** What the program prints.  Numbers are kept as numbers: the
    two-decimal formatting is not modelled. *)
Inductive line :=
| Text (s : string)
| Prompt (s : string)
| Updated (sym : string) (sh avg : num)
| Added (sym : string) (sh cost : num)
| RowLine (sym : string) (sh cost : num) (live : display) (value pl : num)
| Totals (value pl : num)
| Change (pct : num).

Record World := {
  data_file : file_state;
  stdin : list string;
  stdout : list line;
  requests : list string
}.

Definition M (A : Type) : Type := World → result A * World.

Definition ret {A} (a : A) : M A := λ w, (Ok a, w).

Definition bind {A B} (c : M A) (k : A → M B) : M B :=
  λ w, match c w with
       | (Ok a, w') => k a w'
       | (Raise e, w') => (Raise e, w')
       end.

Definition lift {A} (r : result A) : M A := λ w, (r, w).

Notation "x <- c ;; k" := (bind c (λ x, k))
  (at level 62, c at next level, right associativity).
Notation "c ;;; k" := (bind c (λ _, k))
  (at level 62, right associativity).

Definition print (l : line) : M unit :=
  λ w, (Ok tt, {| data_file := data_file w; stdin := stdin w;
                  stdout := stdout w ++ [l]; requests := requests w |}).

(** [input(prompt)]: the prompt is written, then a line is read; at the
    end of the input [EOFError] is raised. *)
Definition input (prompt : string) : M string :=
  print (Prompt prompt) ;;;
  λ w, match stdin w with
       | [] => (Raise EOFError, w)
       | l :: rest =>
           (Ok l, {| data_file := data_file w; stdin := rest;
                     stdout := stdout w; requests := requests w |})
       end.

Definition read_file : M file_state := λ w, (Ok (data_file w), w).

Definition write_file (f : file_state) : M unit :=
  λ w, (Ok tt, {| data_file := f; stdin := stdin w;
                  stdout := stdout w; requests := requests w |}).

(** A list traversed from the front, stopping at the first exception. *)
Fixpoint for_each {A B} (f : A → result B) (l : list A) : result (list B) :=
  match l with
  | [] => Ok []
  | a :: l' =>
      match f a with
      | Raise e => Raise e
      | Ok b => match for_each f l' with
                | Raise e => Raise e
                | Ok bs => Ok (b :: bs)
                end
      end
  end.

Fixpoint fold_M {A S} (f : A → S → M S) (l : list A) (s : S) : M S :=
  match l with
  | [] => ret s
  | a :: l' => s' <- f a s ;; fold_M f l' s'
  end.

(* ================================================================= *)
(** ** Utilities *)

(** The body of the loop of [load_portfolio].  A row that is not a dict
    has no [get]; the defaults are the [int] 0. *)
Definition normalize_row `{Runtime} (row : pyval) : result Row :=
  match row with
  | PDict d =>
      let sym := upper (py_str (default (PStr "") (py_get "symbol" d))) in
      match py_float (py_or (default (PInt 0) (py_get "shares" d)) (PInt 0)) with
      | Raise e => Raise e
      | Ok sh =>
          match py_float (py_or (default (PInt 0) (py_get "price" d)) (PInt 0)) with
          | Raise e => Raise e
          | Ok pr =>
              Ok {| symbol := sym; shares := sh; price := pr;
                    extra := filter (λ kv, core_key kv.1 = false) d |}
          end
      end
  | _ => Raise AttributeError
  end.

Definition load_portfolio `{Runtime} : M (list Row) :=
  f <- read_file ;;
  match f with
  | NoFile => ret []
  | Unreadable r => lift (Raise (read_exn r))
  | BadJson => ret []
  | Json (PList data) => lift (for_each normalize_row data)
  | Json _ => ret []
  end.

Definition save_portfolio (rows : list Row) : M unit :=
  write_file (Json (PList (map row_dict rows))).

(** The row found is returned with its position in [rows]: the caller
    updates that very row. *)
Definition find_row (rows : list Row) (sym : string) : option (nat * Row) :=
  let sym := strip (upper sym) in
  list_find (λ r, upper (symbol r) = sym) rows.

(* ================================================================= *)
(** ** Live price *)

Definition get_live_price `{Runtime} (sym : string) : M (option num) :=
  λ w, (Ok (yf_last_price (requests w) (strip (upper sym))),
        {| data_file := data_file w; stdin := stdin w;
           stdout := stdout w; requests := requests w ++ [sym] |}).

(* ================================================================= *)
(** ** Menu actions *)

(** Lines 114 to 127 of [add_stock]: the found row is re-averaged in
    place, or a new row is appended.  A row that is found is a dict with
    its three keys, hence true in [if existing]. *)
Definition upsert (rows : list Row) (sym : string) (sh cost : num)
  : M (list Row) :=
  match find_row rows sym with
  | Some (i, existing) =>
      let old_shares := shares existing in
      let old_cost := price existing in
      let new_total_shares := old_shares + sh in
      avg <- (if bool_decide (0 < new_total_shares)
              then lift (py_div (old_shares * old_cost + sh * cost)
                                new_total_shares)
              else ret old_cost) ;;
      let existing := set_shares new_total_shares (set_price avg existing) in
      print (Updated sym (shares existing) (price existing)) ;;;
      ret (<[i := existing]> rows)
  | None =>
      let rows := rows ++ [{| symbol := sym; shares := sh; price := cost;
                              extra := [] |}] in
      print (Added sym sh cost) ;;;
      ret rows
  end.

Definition add_stock `{Runtime} : M unit :=
  rows <- load_portfolio ;;
  s <- input "Enter symbol (e.g., AAPL): " ;;
  let sym := upper (strip s) in
  if negb (nonempty sym) then print (Text "No symbol entered.") else
  s <- input "Enter shares (e.g., 3 or 3.5): " ;;
  match float_of_str (strip s) with
  | None => print (Text "Invalid shares.")
  | Some sh =>
      if bool_decide (sh <= 0) then print (Text "Shares must be > 0.") else
      s <- input "Enter your average cost per share: " ;;
      match float_of_str (strip s) with
      | None => print (Text "Invalid cost.")
      | Some cost =>
          if bool_decide (cost < 0) then print (Text "Cost cannot be negative.")
          else
            rows <- upsert rows sym sh cost ;;
            save_portfolio rows
      end
  end.

Definition rule : string :=
  "------------------------------------------------------------------------------".

Definition heads : string :=
  "Symbol       Shares   Cost/Share         Live        Value          P/L".

(** The state of the loop of [view_portfolio]. *)
Record Pass := {
  price_cache : gmap string (option num);
  grand_value : num;
  grand_cost : num
}.

(** The body of the loop of [view_portfolio]. *)
Definition view_row `{Runtime} (r : Row) (p : Pass) : M Pass :=
  let sym := upper (symbol r) in
  let sh := shares r in
  let cost := price r in
  cache <- (match price_cache p !! sym with
            | None => live <- get_live_price sym ;;
                      ret (<[sym := live]> (price_cache p))
            | Some _ => ret (price_cache p)
            end) ;;
  let live := default None (cache !! sym) in
  let live_display := match live with Some x => Dollars x | None => NA end in
  let value := default 0 live * sh in
  let pl := value - cost * sh in
  print (RowLine sym sh cost live_display value pl) ;;;
  ret {| price_cache := cache;
         grand_value := grand_value p + value;
         grand_cost := grand_cost p + cost * sh |}.

(** Lines 138 to 171 of [view_portfolio]: what is done with a portfolio
    that is not empty. *)
Definition valuation `{Runtime} (rows : list Row) : M unit :=
  print (Text "") ;;; print (Text "Your Portfolio:") ;;;
  print (Text rule) ;;; print (Text heads) ;;; print (Text rule) ;;;
  p <- fold_M view_row rows
         {| price_cache := ∅; grand_value := 0; grand_cost := 0 |} ;;
  print (Text rule) ;;;
  print (Totals (grand_value p) (grand_value p - grand_cost p)) ;;;
  (if truthy (grand_value p) && truthy (grand_cost p)
   then change_pct <- lift (py_div (grand_value p - grand_cost p) (grand_cost p)) ;;
        print (Change (change_pct * of_Z 100))
   else ret tt) ;;;
  print (Text "").

Definition view_portfolio `{Runtime} : M unit :=
  rows <- load_portfolio ;;
  match rows with
  | [] => print (Text "") ;;; print (Text "Portfolio is empty.")
  | _ => valuation rows
  end.

(* ================================================================= *)
(** ** Main loop *)

(** The decorated texts of the menu, byte for byte as the source file
    has them. *)
Definition menu_title : string := "ðŸ“ˆ Stock Tracker Menu:".

Definition choose_prompt : string := "Choose an option (1â€“3): ".

Definition goodbye : string := "Goodbye, Jose! Stay invested ðŸ’¼".

Definition invalid_choice : string := "Invalid choice. Please select 1â€“3.".

(** One turn of the loop of [main]: the menu, the choice, the action;
    [true] when the loop goes on, [false] at [break]. *)
Definition main_turn `{Runtime} : M bool :=
  print (Text menu_title) ;;;
  print (Text "1. Add Stock") ;;;
  print (Text "2. View Portfolio (live prices)") ;;;
  print (Text "3. Exit") ;;;
  s <- input choose_prompt ;;
  let choice := strip s in
  if bool_decide (choice = "1") then add_stock ;;; ret true
  else if bool_decide (choice = "2") then view_portfolio ;;; ret true
  else if bool_decide (choice = "3") then print (Text goodbye) ;;; ret false
  else print (Text invalid_choice) ;;; print (Text "") ;;; ret true.

(** [main], run for at most [fuel] turns of its loop: [Some tt] when the
    loop ends at [break], [None] when the turns are used up first. *)
Fixpoint main `{Runtime} (fuel : nat) : M (option unit) :=
  match fuel with
  | O => ret None
  | S fuel =>
      again <- main_turn ;;
      if again then main fuel else ret (Some tt)
  end.

(* ================================================================= *)
(** ** Decidable equality, for evaluating the program on concrete data *)

#[global] Instance pyval_eq_dec : EqDecision pyval.
Proof.
  refine (fix go (a b : pyval) {struct a} : Decision (a = b) :=
    match a, b with
    | PNone, PNone => left _
    | PBool x, PBool y => cast_if (decide (x = y))
    | PInt x, PInt y => cast_if (decide (x = y))
    | PNum x, PNum y => cast_if (decide (x = y))
    | PStr x, PStr y => cast_if (decide (x = y))
    | PList x, PList y => cast_if (@list_eq_dec _ go x y)
    | PDict x, PDict y => cast_if (@list_eq_dec _ (@prod_eq_dec _ _ _ go) x y)
    | _, _ => right _
    end); clear go; congruence.
Defined.

#[global] Instance exn_eq_dec : EqDecision exn.
Proof. solve_decision. Defined.

#[global] Instance result_eq_dec `{EqDecision A} : EqDecision (result A).
Proof. solve_decision. Defined.

#[global] Instance Row_eq_dec : EqDecision Row.
Proof. solve_decision. Defined.

#[global] Instance read_error_eq_dec : EqDecision read_error.
Proof. solve_decision. Defined.

#[global] Instance file_state_eq_dec : EqDecision file_state.
Proof. solve_decision. Defined.

#[global] Instance display_eq_dec : EqDecision display.
Proof. solve_decision. Defined.

#[global] Instance line_eq_dec : EqDecision line.
Proof. solve_decision. Defined.

#[global] Instance World_eq_dec : EqDecision World.
Proof. solve_decision. Defined.

(** A decidable statement about concrete data is settled by evaluation. *)
Ltac by_compute := apply (bool_decide_unpack _); vm_compute; exact I.

(* ================================================================= *)
(** ** A small runtime for the examples *)

Definition digit (c : ascii) : option N :=
  let n := N_of_ascii c in
  if (48 <=? n)%N && (n <=? 57)%N then Some (n - 48)%N else None.

Fixpoint digits (s : string) (acc : N) : option N :=
  match s with
  | EmptyString => Some acc
  | String c s' =>
      match digit c with
      | Some d => digits s' (10 * acc + d)%N
      | None => None
      end
  end.

(** [float] on decimal integers with an optional minus sign; every
    other string is refused. *)
Definition integer_of_str (s : string) : option num :=
  match s with
  | EmptyString => None
  | String "-" EmptyString => None
  | String "-" s' => (λ n, - of_Z (Z.of_N n)) <$> digits s' 0
  | _ => (λ n, of_Z (Z.of_N n)) <$> digits s 0
  end.

(** A runtime for the examples, which only show strings as symbols:
    [float] reads decimal integers, MSFT trades at 60 and AAPL at 150,
    and no other ticker is known. *)
Definition demo_runtime : Runtime := {|
  py_repr v := match v with
               | PBool true => "True"
               | PBool false => "False"
               | _ => "None"
               end;
  float_of_str := integer_of_str;
  yf_last_price _ s :=
    if bool_decide (s = "MSFT") then Some (of_Z 60)
    else if bool_decide (s = "AAPL") then Some (of_Z 150)
    else None
|}.

(** *** Worlds of the examples *)

(** A data file that lists AAPL twice, once in lower case; MSFT is
    then entered at the prompts. *)
Definition twice_listed : World :=
  {| data_file :=
       Json (PList [PDict [("symbol", PStr "AAPL"); ("shares", PNum (of_Z 1));
                           ("price", PNum (of_Z 10))];
                    PDict [("symbol", PStr "aapl"); ("shares", PNum (of_Z 2));
                           ("price", PNum (of_Z 20))]]);
     stdin := ["MSFT"; "1"; "50"];
     stdout := []; requests := [] |}.

(** Ten MSFT shares bought at 50. *)
Definition msft_only : World :=
  {| data_file :=
       Json (PList [PDict [("symbol", PStr "MSFT"); ("shares", PNum (of_Z 10));
                           ("price", PNum (of_Z 50))]]);
     stdin := []; stdout := []; requests := [] |}.

(** Two rows of a ticker that nobody quotes, around one MSFT row. *)
Definition partly_quoted : World :=
  {| data_file :=
       Json (PList [PDict [("symbol", PStr "ZZZZ"); ("shares", PNum (of_Z 3));
                           ("price", PNum (of_Z 7))];
                    PDict [("symbol", PStr "MSFT"); ("shares", PNum (of_Z 10));
                           ("price", PNum (of_Z 50))];
                    PDict [("symbol", PStr "zzzz"); ("shares", PNum (of_Z 1));
                           ("price", PNum (of_Z 9))]]);
     stdin := []; stdout := []; requests := [] |}.

(** A data file whose only row has blanks around a lower-case symbol. *)
Definition padded_symbol : World :=
  {| data_file :=
       Json (PList [PDict [("symbol", PStr " aapl "); ("shares", PNum (of_Z 1));
                           ("price", PNum (of_Z 10))]]);
     stdin := ["aapl"; "1"; "30"]; stdout := []; requests := [] |}.

(** A data file whose only row has shares that are not a number. *)
Definition shares_not_a_number : World :=
  {| data_file :=
       Json (PList [PDict [("symbol", PStr "AAPL"); ("shares", PStr "many");
                           ("price", PNum (of_Z 10))]]);
     stdin := []; stdout := []; requests := [] |}.

(** Ten MSFT shares at 50 are held; 5 at 80 and 10 at 20 are entered, in
    one order and in the other. *)
Definition more_msft : World :=
  {| data_file := data_file msft_only;
     stdin := ["msft"; "5"; "80"; " MSFT "; "10"; "20"];
     stdout := []; requests := [] |}.

Definition more_msft_swapped : World :=
  {| data_file := data_file msft_only;
     stdin := [" MSFT "; "10"; "20"; "msft"; "5"; "80"];
     stdout := []; requests := [] |}.

(** An entry of no shares. *)
Definition no_shares : World :=
  {| data_file := data_file msft_only;
     stdin := ["msft"; "0"; "80"];
     stdout := []; requests := [] |}.

(** A data file, edited by hand, that holds -2 shares of AAPL; 2 shares
    at 100 and 3 at 150 are entered, in one order and in the other. *)
Definition short_aapl : World :=
  {| data_file :=
       Json (PList [PDict [("symbol", PStr "AAPL");
                           ("shares", PNum (- of_Z 2));
                           ("price", PNum (of_Z 10))]]);
     stdin := ["AAPL"; "2"; "100"; "AAPL"; "3"; "150"];
     stdout := []; requests := [] |}.

Definition short_aapl_swapped : World :=
  {| data_file := data_file short_aapl;
     stdin := ["AAPL"; "3"; "150"; "AAPL"; "2"; "100"];
     stdout := []; requests := [] |}.

(** A data file, edited by hand, with AAPL once with a blank before it
    and once without. *)
Definition blank_before : World :=
  {| data_file :=
       Json (PList [PDict [("symbol", PStr " AAPL"); ("shares", PNum (of_Z 1));
                           ("price", PNum (of_Z 10))];
                    PDict [("symbol", PStr "AAPL"); ("shares", PNum (of_Z 2));
                           ("price", PNum (of_Z 20))]]);
     stdin := []; stdout := []; requests := [] |}.

(** MSFT is held; shares that are no number are typed. *)
Definition unreadable_shares : World :=
  {| data_file := data_file msft_only;
     stdin := ["msft"; "lots"; "80"];
     stdout := []; requests := [] |}.

(** A session at the menu: more MSFT is entered, the portfolio is
    viewed, a choice that is none is typed, and the menu is left. *)
Definition session : World :=
  {| data_file := data_file msft_only;
     stdin := ["1"; "msft"; "5"; "80"; " 2 "; "9"; "3"; "1"];
     stdout := []; requests := [] |}.

(** A session that only views, and one that only enters. *)
Definition viewing_session : World :=
  {| data_file := data_file msft_only;
     stdin := ["2"; "x"; "2"; "3"];
     stdout := []; requests := [] |}.

Definition entering_session : World :=
  {| data_file := data_file msft_only;
     stdin := ["1"; "msft"; "5"; "80"; "3"];
     stdout := []; requests := [] |}.

(** No data file yet; AAPL is entered twice: 2 shares at 100, then 2
    shares at 150. *)
Definition two_lots : World :=
  {| data_file := NoFile;
     stdin := ["AAPL"; "2"; "100"; "AAPL"; "2"; "150"];
     stdout := []; requests := [] |}.

(** MSFT is held; 2 shares of AAPL at 100 and 3 at 150 are entered, in
    one order and in the other. *)
Definition aapl_lots : World :=
  {| data_file := data_file msft_only;
     stdin := ["aapl"; "2"; "100"; " AAPL "; "3"; "150"];
     stdout := []; requests := [] |}.

Definition aapl_lots_swapped : World :=
  {| data_file := data_file msft_only;
     stdin := [" AAPL "; "3"; "150"; "aapl"; "2"; "100"];
     stdout := []; requests := [] |}.

(** A data file written with whole numbers, which [json.load] reads as
    [int]s. *)
Definition whole_numbers : World :=
  {| data_file :=
       Json (PList [PDict [("symbol", PStr "AAPL"); ("shares", PInt 3);
                           ("price", PInt 175)]]);
     stdin := []; stdout := []; requests := [] |}.

(** A data file whose only row has more shares than a double can
    hold: the integer [10^400]. *)
Definition too_many_shares : World :=
  {| data_file :=
       Json (PList [PDict [("symbol", PStr "AAPL");
                           ("shares", PInt (10 ^ 400));
                           ("price", PNum (of_Z 10))]]);
     stdin := []; stdout := []; requests := [] |}.

(** A data file whose bytes are no text, and one of brackets nested too
    deep. *)
Definition not_text : World :=
  {| data_file := Unreadable NotText;
     stdin := ["2"]; stdout := []; requests := [] |}.

Definition nested_too_deep : World :=
  {| data_file := Unreadable TooDeep;
     stdin := []; stdout := []; requests := [] |}.

(* ================================================================= *)
(** ** Vocabulary of the statements *)

(** The holdings as the program reads them from the data file. *)
Definition holdings `{Runtime} (w : World) : result (list Row) :=
  (load_portfolio w).1.

(** The key under which a row is compared and its price is cached. *)
Definition key (r : Row) : string := upper (symbol r).

(** A row as [load_portfolio] leaves it and [save_portfolio] writes it:
    the symbol is in upper case and [extra] has none of the three keys. *)
Definition normal (r : Row) : Prop :=
  upper (symbol r) = symbol r ∧ Forall (λ kv, core_key kv.1 = false) (extra r).

(** The lines [t], [a], [b] typed at the three prompts of [add_stock] are
    read as the symbol [sym], [sh] shares and the cost [cost]. *)
Definition typed `{Runtime} (t a b : string) (sym : string) (sh cost : num)
  : Prop :=
  upper (strip t) = sym ∧ float_of_str (strip a) = Some sh
  ∧ float_of_str (strip b) = Some cost.

(** The world once the three prompts are answered. *)
Definition answered (w : World) (rest : list string) : World :=
  {| data_file := data_file w; stdin := rest;
     stdout := stdout w ++ [Prompt "Enter symbol (e.g., AAPL): ";
                            Prompt "Enter shares (e.g., 3 or 3.5): ";
                            Prompt "Enter your average cost per share: "];
     requests := requests w |}.

(** The row that replaces [r] when [sh] shares at [cost] are added. *)
Definition merged (r : Row) (sh cost : num) : Row :=
  {| symbol := symbol r;
     shares := shares r + sh;
     price := (shares r * price r + sh * cost) / (shares r + sh);
     extra := extra r |}.

Definition new_row (sym : string) (sh cost : num) : Row :=
  {| symbol := sym; shares := sh; price := cost; extra := [] |}.

(** The rows that lines 114 to 127 of [add_stock] leave. *)
Definition upserted (rows : list Row) (sym : string) (sh cost : num)
  : list Row :=
  match find_row rows sym with
  | Some (i, r) =>
      <[i := if decide (0 < shares r + sh) then merged r sh cost
             else set_shares (shares r + sh) r]> rows
  | None => rows ++ [new_row sym sh cost]
  end.

Fixpoint total (l : list num) : num :=
  match l with
  | [] => 0
  | x :: l' => x + total l'
  end.

(** The messages with which [add_stock] refuses an entry. *)
Definition refusals : list string :=
  ["No symbol entered."; "Shares must be > 0."; "Cost cannot be negative."].

(** A stored symbol without white space around it. *)
Definition trimmed (r : Row) : Prop := strip (symbol r) = symbol r.

(** The symbol of a row as the data model normalises it: in upper case
    and trimmed. *)
Definition normalized_symbol (r : Row) : string := strip (upper (symbol r)).

(** The live price a cache holds for a row. *)
Definition cached (c : gmap string (option num)) (r : Row) : option num :=
  default None (c !! key r).

Definition row_value (live : option num) (r : Row) : num :=
  default 0 live * shares r.

Definition row_cost (r : Row) : num := price r * shares r.

(** The line printed for a row whose live price is [live]; an
    unavailable price is shown as [NA]. *)
Definition row_line (live : option num) (r : Row) : line :=
  RowLine (key r) (shares r) (price r)
    (match live with Some x => Dollars x | None => NA end)
    (row_value live r) (row_value live r - row_cost r).

(** The keys of [ks] that are not in [seen], each once, in the order in
    which they first occur. *)
Fixpoint fresh_keys (seen : gset string) (ks : list string) : list string :=
  match ks with
  | [] => []
  | k :: ks' =>
      if decide (k ∈ seen) then fresh_keys seen ks'
      else k :: fresh_keys ({[k]} ∪ seen) ks'
  end.

Definition first_seen (ks : list string) : list string := fresh_keys ∅ ks.

(** What [get_live_price] answers to the [i]-th request of a pass that
    asks for [asked], when [before] was requested earlier. *)
Definition answer `{Runtime} (before asked : list string) (i : nat)
    (k : string) : option num :=
  yf_last_price (before ++ take i asked) (strip (upper k)).

(** The lines that [view_portfolio] prints above and below the rows. *)
Definition table_head : list line :=
  [Text ""; Text "Your Portfolio:"; Text rule; Text heads; Text rule].

Definition percent_lines (tv tc : num) : list line :=
  if truthy tv && truthy tc then [Change ((tv - tc) / tc * of_Z 100)] else [].

Definition table_foot (tv tc : num) : list line :=
  [Text rule; Totals tv (tv - tc)] ++ percent_lines tv tc ++ [Text ""].

(** The number [x] that [float(v or 0)] gives for the value [v] of a key
    of a raw row ([None]: the key is missing), when it gives one. *)
Definition coerces `{Runtime} (v : option pyval) (x : num) : Prop :=
  match v with
  | None | Some PNone => x = 0
  | Some (PBool b) => x = if b then of_Z 1 else 0
  | Some (PInt z) => (Z.abs z < float_limit)%Z ∧ x = of_Z z
  | Some (PNum y) => x = y
  | Some (PStr s) => if nonempty s then float_of_str s = Some x else x = 0
  | Some (PList l) => l = [] ∧ x = 0
  | Some (PDict d) => d = [] ∧ x = 0
  end.

(** Values of a key for which [float(v or 0)] is defined: an [int] must
    be one that [float] can convert. *)
Definition numeric `{Runtime} (v : option pyval) : Prop :=
  match v with
  | None | Some PNone | Some (PBool _) | Some (PNum _) => True
  | Some (PInt z) => (Z.abs z < float_limit)%Z
  | Some (PStr s) => s = "" ∨ is_Some (float_of_str s)
  | Some (PList l) => l = []
  | Some (PDict d) => d = []
  end.

(** Raw rows that [load_portfolio] accepts. *)
Definition loadable `{Runtime} (row : pyval) : Prop :=
  ∃ d, row = PDict d ∧ numeric (py_get "shares" d) ∧ numeric (py_get "price" d).

(** A raw row and the row [load_portfolio] makes of it. *)
Definition normalizes `{Runtime} (row : pyval) (r : Row) : Prop :=
  ∃ d, row = PDict d
       ∧ symbol r = upper (py_str (default (PStr "") (py_get "symbol" d)))
       ∧ coerces (py_get "shares" d) (shares r)
       ∧ coerces (py_get "price" d) (price r)
       ∧ extra r = filter (λ kv, core_key kv.1 = false) d.

(** A runtime without a network: [float] as in the examples, and no
    ticker is quoted. *)
Definition offline_runtime : Runtime := {|
  py_repr := @py_repr demo_runtime;
  float_of_str := integer_of_str;
  yf_last_price _ _ := None
|}.

(** The world once the menu is printed and a choice is read. *)
Definition chosen (w : World) (rest : list string) : World :=
  {| data_file := data_file w; stdin := rest;
     stdout := stdout w ++ [Text menu_title; Text "1. Add Stock";
                            Text "2. View Portfolio (live prices)";
                            Text "3. Exit"; Prompt choose_prompt];
     requests := requests w |}.

(* ================================================================= *)
(** * Properties *)

(** ** Strings *)

Lemma upper_char_idem c : upper_char (upper_char c) = upper_char c.
Proof. destruct c as [[] [] [] [] [] [] [] []]; reflexivity. Qed.

Lemma is_space_upper_char c : is_space (upper_char c) = is_space c.
Proof. destruct c as [[] [] [] [] [] [] [] []]; reflexivity. Qed.

Lemma upper_idem s : upper (upper s) = upper s.
Proof. induction s as [|c s IH]; simpl; [done|]. by rewrite upper_char_idem, IH. Qed.

Lemma lstrip_upper s : lstrip (upper s) = upper (lstrip s).
Proof.
  induction s as [|c s IH]; simpl; [done|].
  rewrite is_space_upper_char. by destruct (is_space c).
Qed.

Lemma rstrip_upper s : rstrip (upper s) = upper (rstrip s).
Proof.
  induction s as [|c s IH]; simpl; [done|].
  rewrite IH, is_space_upper_char.
  destruct (rstrip s); simpl; [|done]. by destruct (is_space c).
Qed.

Lemma strip_upper s : strip (upper s) = upper (strip s).
Proof. unfold strip. by rewrite lstrip_upper, rstrip_upper. Qed.

Lemma rstrip_idem s : rstrip (rstrip s) = rstrip s.
Proof.
  induction s as [|c s IH]; simpl; [done|].
  destruct (rstrip s) as [|d t] eqn:E.
  - destruct (is_space c) eqn:Ec; simpl; [done|]. by rewrite Ec.
  - simpl in *. by rewrite IH.
Qed.

Lemma lstrip_head s :
  lstrip s = EmptyString ∨ ∃ c t, lstrip s = String c t ∧ is_space c = false.
Proof.
  induction s as [|c s IH]; simpl; [by left|].
  destruct (is_space c) eqn:Ec; [done|]. right. by exists c, s.
Qed.

Lemma lstrip_strip s : lstrip (strip s) = strip s.
Proof.
  unfold strip. destruct (lstrip_head s) as [->|(c & t & -> & Hc)]; [done|].
  simpl. destruct (rstrip t); rewrite ?Hc; simpl; by rewrite Hc.
Qed.

Lemma strip_idem s : strip (strip s) = strip s.
Proof. unfold strip at 1. rewrite lstrip_strip. unfold strip. apply rstrip_idem. Qed.

(** The normal form of a typed symbol: [s.strip().upper()] and
    [s.upper().strip()] agree, and applying either again changes nothing. *)
Lemma normal_symbol s : strip (upper (upper (strip s))) = upper (strip s).
Proof. by rewrite upper_idem, strip_upper, strip_idem. Qed.

(* ================================================================= *)
(** ** Numbers *)

Lemma Qc_pos_ne0 (x : num) : 0 < x → x ≠ 0.
Proof. intros Hx ->. by apply (irreflexivity Qclt 0). Qed.

Lemma py_div_pos a b : 0 < b → py_div a b = Ok (a / b).
Proof.
  intros Hb. unfold py_div. rewrite bool_decide_eq_false_2; [done|].
  by apply Qc_pos_ne0.
Qed.

Lemma py_div_not_zero a b : b ≠ 0 → py_div a b = Ok (a / b).
Proof. intros Hb. unfold py_div. by rewrite bool_decide_eq_false_2. Qed.

Lemma truthy_true x : truthy x = true ↔ x ≠ 0.
Proof.
  unfold truthy. rewrite negb_true_iff, bool_decide_eq_false. done.
Qed.

(* ================================================================= *)
(** ** [load_portfolio] and [save_portfolio] *)

Section Load.
Context `{Runtime}.

Lemma load_portfolio_world w : (load_portfolio w).2 = w.
Proof.
  unfold load_portfolio, bind, read_file, ret, lift.
  destruct (data_file w) as [|r| |[]]; reflexivity.
Qed.

Lemma load_portfolio_run w : load_portfolio w = (holdings w, w).
Proof.
  unfold holdings. rewrite <- (load_portfolio_world w) at 3.
  by destruct (load_portfolio w).
Qed.

Lemma holdings_data_file w w' :
  data_file w' = data_file w → holdings w' = holdings w.
Proof.
  unfold holdings, load_portfolio, bind, read_file, ret, lift.
  intros ->. destruct (data_file w) as [|r| |[]]; reflexivity.
Qed.

Lemma normalize_row_normal v r : normalize_row v = Ok r → normal r.
Proof.
  destruct v as [| | | | | |d]; try discriminate. unfold normalize_row.
  destruct (py_float _); [|discriminate].
  destruct (py_float _); [|discriminate].
  intros [= <-]. split; simpl.
  - apply upper_idem.
  - induction d as [|kv d IH]; [constructor|].
    rewrite filter_cons. case_decide; [constructor|]; done.
Qed.

Lemma for_each_normal data rows :
  for_each normalize_row data = Ok rows → Forall normal rows.
Proof.
  revert rows. induction data as [|v data IH]; simpl; intros rows.
  - intros [= <-]. constructor.
  - destruct (normalize_row v) as [r|] eqn:Er; [|discriminate].
    destruct (for_each normalize_row data) as [rs|]; [|discriminate].
    intros [= <-]. constructor; eauto using normalize_row_normal.
Qed.

Lemma holdings_normal w rows : holdings w = Ok rows → Forall normal rows.
Proof.
  unfold holdings, load_portfolio, bind, read_file, ret, lift. simpl.
  destruct (data_file w) as [|r| |[]]; simpl;
    try (intros [= <-]; constructor); try discriminate.
  apply for_each_normal.
Qed.

Lemma float_limit_pos : (0 < float_limit)%Z.
Proof. by vm_compute. Qed.

Lemma float_zero : py_float (PInt 0) = Ok 0.
Proof.
  unfold py_float. change (Z.abs 0) with 0%Z.
  by rewrite (bool_decide_eq_true_2 _ float_limit_pos).
Qed.

Lemma float_or_zero x : py_float (py_or (PNum x) (PInt 0)) = Ok x.
Proof.
  unfold py_or, py_truth, truthy. case_bool_decide as Hx; cbn [negb]; [|done].
  by rewrite float_zero, Hx.
Qed.

Lemma normalize_row_dict r : normal r → normalize_row (row_dict r) = Ok r.
Proof.
  intros [Hsym Hextra]. destruct r as [sym sh pr ex]; simpl in *.
  unfold normalize_row, row_dict; simpl.
  rewrite !float_or_zero, Hsym. do 2 f_equal.
  rewrite !filter_cons; simpl.
  induction Hextra as [|kv ex Hkv _ IH]; [done|].
  rewrite filter_cons. rewrite decide_True by done. by rewrite IH.
Qed.

Lemma for_each_row_dict rows :
  Forall normal rows → for_each normalize_row (map row_dict rows) = Ok rows.
Proof.
  induction 1 as [|r rows Hr _ IH]; cbn [map for_each]; [done|].
  by rewrite normalize_row_dict, IH.
Qed.

(** What is saved is what is loaded next. *)
Lemma holdings_saved rows w :
  Forall normal rows → holdings (save_portfolio rows w).2 = Ok rows.
Proof.
  intros Hrows. unfold holdings, load_portfolio, bind, read_file, lift.
  simpl. by rewrite for_each_row_dict.
Qed.
End Load.

(* ================================================================= *)
(** ** [find_row] *)

Lemma find_row_Some rows t i r :
  find_row rows t = Some (i, r) ↔
  rows !! i = Some r ∧ key r = strip (upper t)
  ∧ ∀ j x, rows !! j = Some x → (j < i)%nat → key x ≠ strip (upper t).
Proof.
  unfold find_row, key.
  apply (list_find_Some (λ r, upper (symbol r) = strip (upper t))).
Qed.

Lemma find_row_None rows t :
  find_row rows t = None ↔ Forall (λ r, key r ≠ strip (upper t)) rows.
Proof.
  unfold find_row, key.
  apply (list_find_None (λ r, upper (symbol r) = strip (upper t))).
Qed.

Lemma find_row_app_new rows t r :
  find_row rows t = None → key r = strip (upper t) →
  find_row (rows ++ [r]) t = Some (length rows, r).
Proof.
  intros Hnone Hr. apply find_row_Some. split_and!.
  - by rewrite lookup_app_r, Nat.sub_diag.
  - done.
  - intros j x Hx Hj. rewrite lookup_app_l in Hx by done.
    rewrite find_row_None, Forall_lookup in Hnone. eauto.
Qed.

(* ================================================================= *)
(** ** The re-averaging step of [add_stock] *)

Lemma upsert_absent rows sym sh cost w :
  find_row rows sym = None →
  upsert rows sym sh cost w
  = (Ok (rows ++ [new_row sym sh cost]), (print (Added sym sh cost) w).2).
Proof. intros Hf. unfold upsert. by rewrite Hf. Qed.

Lemma upsert_found rows sym sh cost i r w :
  find_row rows sym = Some (i, r) → 0 < shares r + sh →
  upsert rows sym sh cost w
  = (Ok (<[i := merged r sh cost]> rows),
     (print (Updated sym (shares r + sh)
               ((shares r * price r + sh * cost) / (shares r + sh))) w).2).
Proof.
  intros Hf Hpos. unfold upsert. rewrite Hf.
  rewrite bool_decide_eq_true_2 by done.
  unfold bind, lift. by rewrite py_div_pos.
Qed.

(** When the new total is not positive the cost basis is left as it is. *)
Lemma upsert_found_no_average rows sym sh cost i r w :
  find_row rows sym = Some (i, r) → ¬ 0 < shares r + sh →
  upsert rows sym sh cost w
  = (Ok (<[i := set_shares (shares r + sh) r]> rows),
     (print (Updated sym (shares r + sh) (price r)) w).2).
Proof.
  intros Hf Hpos. unfold upsert. rewrite Hf.
  rewrite bool_decide_eq_false_2 by done.
  unfold bind, ret. simpl. by destruct r.
Qed.

(** The step raises nothing: the division is guarded. *)
Lemma upsert_ok rows sym sh cost w :
  ∃ rows', (upsert rows sym sh cost w).1 = Ok rows'.
Proof.
  destruct (find_row rows sym) as [[i r]|] eqn:Hf.
  - destruct (decide (0 < shares r + sh)).
    + erewrite upsert_found by done. eauto.
    + erewrite upsert_found_no_average by done. eauto.
  - rewrite upsert_absent by done. eauto.
Qed.

Lemma upsert_world rows sym sh cost w :
  data_file (upsert rows sym sh cost w).2 = data_file w
  ∧ stdin (upsert rows sym sh cost w).2 = stdin w
  ∧ requests (upsert rows sym sh cost w).2 = requests w.
Proof.
  destruct (find_row rows sym) as [[i r]|] eqn:Hf.
  - destruct (decide (0 < shares r + sh)).
    + by erewrite upsert_found by done.
    + by erewrite upsert_found_no_average by done.
  - by rewrite upsert_absent by done.
Qed.

Lemma upsert_rows rows sym sh cost w :
  (upsert rows sym sh cost w).1 = Ok (upserted rows sym sh cost).
Proof.
  unfold upserted. destruct (find_row rows sym) as [[i r]|] eqn:Hf.
  - case_decide.
    + by erewrite upsert_found by done.
    + by erewrite upsert_found_no_average by done.
  - by rewrite upsert_absent by done.
Qed.

(** A symbol as [add_stock] reads it is its own search key. *)
Lemma typed_symbol_key t : strip (upper (upper (strip t))) = upper (upper (strip t)).
Proof. by rewrite normal_symbol, upper_idem. Qed.

Lemma find_row_insert rows t i r r' :
  find_row rows t = Some (i, r) → key r' = key r →
  find_row (<[i := r']> rows) t = Some (i, r').
Proof.
  rewrite !find_row_Some. intros (Hi & Hr & Hleast) Hk. split_and!.
  - apply list_lookup_insert_eq. by eapply lookup_lt_Some.
  - congruence.
  - intros j x Hx Hj. rewrite list_lookup_insert_ne in Hx by lia. eauto.
Qed.

Lemma upserted_normal rows sym sh cost :
  Forall normal rows → upper sym = sym →
  Forall normal (upserted rows sym sh cost).
Proof.
  intros Hrows Hsym. unfold upserted.
  destruct (find_row rows sym) as [[i r]|] eqn:Hf.
  - apply find_row_Some in Hf as (Hi & _).
    apply Forall_insert; [done|].
    pose proof (Forall_lookup_1 _ _ _ _ Hrows Hi) as Hr.
    case_decide; exact Hr.
  - apply Forall_app. split; [done|].
    repeat constructor. done.
Qed.

(* ================================================================= *)
(** ** [add_stock] on a valid entry *)

Section Add.
Context `{Runtime}.

Lemma add_stock_valid w rows t a b rest sym sh cost :
  holdings w = Ok rows →
  stdin w = t :: a :: b :: rest →
  typed t a b sym sh cost →
  nonempty sym = true → 0 < sh → 0 ≤ cost →
  add_stock w
  = (rows' <- upsert rows sym sh cost ;; save_portfolio rows')
      (answered w rest).
Proof.
  intros Hh Hin (Hsym & Ha & Hb) Hne Hsh Hcost.
  unfold add_stock. unfold bind at 1. rewrite load_portfolio_run, Hh.
  destruct w as [f i o q]; simpl in Hin; subst i.
  unfold bind at 1. unfold input at 1, bind at 1, print at 1. cbn [stdin].
  rewrite Hsym, Hne. cbn [negb].
  unfold bind at 1. unfold input at 1, bind at 1, print at 1. cbn [stdin].
  rewrite Ha. rewrite bool_decide_eq_false_2 by by apply Qclt_nge.
  unfold bind at 1. unfold input at 1, bind at 1, print at 1. cbn [stdin].
  rewrite Hb. rewrite bool_decide_eq_false_2 by by apply Qcle_ngt.
  unfold answered. cbn [data_file stdin stdout requests].
  by rewrite <- !(assoc_L (++)).
Qed.

(** A valid entry is stored: the program ends normally, the input is
    consumed, and the holdings read next are the re-averaged rows. *)
Lemma add_stock_valid_holdings w rows t a b rest sym sh cost :
  holdings w = Ok rows →
  stdin w = t :: a :: b :: rest →
  typed t a b sym sh cost →
  nonempty sym = true → 0 < sh → 0 ≤ cost →
  (add_stock w).1 = Ok tt
  ∧ stdin (add_stock w).2 = rest
  ∧ data_file (add_stock w).2
    = Json (PList (map row_dict (upserted rows sym sh cost)))
  ∧ holdings (add_stock w).2 = Ok (upserted rows sym sh cost).
Proof.
  intros Hh Hin Hty Hne Hsh Hcost.
  rewrite (add_stock_valid w rows t a b rest sym sh cost) by done.
  unfold bind.
  pose proof (upsert_rows rows sym sh cost (answered w rest)) as Hrows.
  pose proof (upsert_world rows sym sh cost (answered w rest)) as (_ & Hstdin & _).
  destruct (upsert rows sym sh cost (answered w rest)) as [[rows'|e] w1];
    simpl in Hrows; [|discriminate].
  injection Hrows as ->. split_and!; [done|done|done|].
  apply holdings_saved, upserted_normal.
  - by eapply holdings_normal.
  - destruct Hty as (<- & _). apply upper_idem.
Qed.
End Add.

(* ================================================================= *)
(** ** Two entries for one symbol *)

Lemma insert_last {A} (l : list A) (x y : A) :
  <[length l := y]> (l ++ [x]) = l ++ [y].
Proof. by rewrite insert_app_r_alt, Nat.sub_diag. Qed.

Lemma filter_key_absent rows sym :
  Forall (λ r, key r ≠ sym) rows → filter (λ r, key r = sym) rows = [].
Proof.
  induction 1 as [|r rows Hr _ IH]; [done|].
  by rewrite filter_cons, decide_False.
Qed.

(** A symbol not held yet, entered twice: one row is appended, with the
    summed shares and the weighted average of the two costs. *)
Lemma upserted_twice_new rows sym s1 c1 s2 c2 :
  strip (upper sym) = upper sym →
  find_row rows sym = None → 0 < s1 + s2 →
  upserted (upserted rows sym s1 c1) sym s2 c2
  = rows ++ [new_row sym (s1 + s2) ((s1 * c1 + s2 * c2) / (s1 + s2))].
Proof.
  intros Hsym Hnone Hpos. unfold upserted at 2. rewrite Hnone.
  unfold upserted.
  rewrite (find_row_app_new rows sym (new_row sym s1 c1)) by done.
  cbn [shares new_row]. rewrite decide_True by done. apply insert_last.
Qed.

(** C1. Two valid entries of [add_stock] for one symbol that is not held
    yet, [s1] shares at [c1] and then [s2] shares at [c2] with
    [s1, s2 > 0] and [c1, c2 >= 0]: both runs end normally, the division
    by [s1 + s2] is defined, and the holdings read afterwards are the
    former rows followed by a single row for the symbol, with
    [s1 + s2] shares at the cost basis
    [(s1 * c1 + s2 * c2) / (s1 + s2)]. *)
Theorem add_stock_twice_weighted_average `{Runtime}
    w rows t1 a1 b1 t2 a2 b2 rest sym s1 c1 s2 c2 :
  holdings w = Ok rows →
  stdin w = t1 :: a1 :: b1 :: t2 :: a2 :: b2 :: rest →
  typed t1 a1 b1 sym s1 c1 → typed t2 a2 b2 sym s2 c2 →
  nonempty sym = true →
  0 < s1 → 0 ≤ c1 → 0 < s2 → 0 ≤ c2 →
  find_row rows sym = None →
  let w1 := (add_stock w).2 in
  let w2 := (add_stock w1).2 in
  let merged_row :=
    new_row sym (s1 + s2) ((s1 * c1 + s2 * c2) / (s1 + s2)) in
  (add_stock w).1 = Ok tt ∧ (add_stock w1).1 = Ok tt
  ∧ py_div (s1 * c1 + s2 * c2) (s1 + s2) = Ok (price merged_row)
  ∧ holdings w2 = Ok (rows ++ [merged_row])
  ∧ filter (λ r, key r = upper sym) (rows ++ [merged_row]) = [merged_row].
Proof.
  intros Hh Hin Hty1 Hty2 Hne Hs1 Hc1 Hs2 Hc2 Hnone w1 w2 merged_row.
  assert (Hpos : 0 < s1 + s2) by by apply Qcplus_pos_pos.
  assert (Hsym : strip (upper sym) = upper sym).
  { destruct Hty1 as (<- & _). apply typed_symbol_key. }
  destruct (add_stock_valid_holdings w rows t1 a1 b1 (t2 :: a2 :: b2 :: rest)
              sym s1 c1) as (Hr1 & Hin1 & _ & Hh1); [done..|].
  destruct (add_stock_valid_holdings w1 _ t2 a2 b2 rest sym s2 c2 Hh1)
    as (Hr2 & _ & _ & Hh2); [done..|].
  split_and!; [done|done|by apply py_div_pos| |].
  - subst w2 merged_row. rewrite Hh2. f_equal.
    by apply upserted_twice_new.
  - rewrite filter_app, filter_key_absent.
    + rewrite filter_cons, decide_True by done. done.
    + apply find_row_None in Hnone. by rewrite Hsym in Hnone.
Qed.

Section Examples.
#[local] Existing Instance demo_runtime.

(** Merging AAPL 2 @ 100 with AAPL 2 @ 150 gives AAPL 4 @ 125. *)
Lemma two_lots_merged :
  holdings (add_stock (add_stock two_lots).2).2
  = Ok [new_row "AAPL" (of_Z 4) (of_Z 125)].
Proof.
  pose proof (add_stock_twice_weighted_average two_lots []
                "AAPL" "2" "100" "AAPL" "2" "150" [] "AAPL"
                (of_Z 2) (of_Z 100) (of_Z 2) (of_Z 150)) as Hthm.
  destruct Hthm as (_ & _ & _ & Hh & _);
    [reflexivity|reflexivity|repeat split|repeat split|reflexivity
    |by_compute|by_compute|by_compute|by_compute|reflexivity|].
  rewrite Hh. by_compute.
Defined.
End Examples.

(* ================================================================= *)
(** ** The order of two entries *)

Lemma upserted_found rows sym sh cost i r :
  find_row rows sym = Some (i, r) → 0 < shares r + sh →
  upserted rows sym sh cost = <[i := merged r sh cost]> rows.
Proof. intros Hf Hpos. unfold upserted. by rewrite Hf, decide_True. Qed.

Lemma upserted_absent rows sym sh cost :
  find_row rows sym = None →
  upserted rows sym sh cost = rows ++ [new_row sym sh cost].
Proof. intros Hf. unfold upserted. by rewrite Hf. Qed.

Lemma merged_twice r s1 c1 s2 c2 :
  0 ≤ shares r → 0 < s1 → 0 < s2 →
  merged (merged r s1 c1) s2 c2
  = {| symbol := symbol r;
       shares := shares r + (s1 + s2);
       price := (shares r * price r + (s1 * c1 + s2 * c2))
                / (shares r + (s1 + s2));
       extra := extra r |}.
Proof.
  intros Hr Hs1 Hs2. unfold merged; cbn [symbol shares price extra].
  assert (shares r + s1 ≠ 0) by by apply Qc_pos_ne0, Qcplus_nonneg_pos.
  assert (shares r + (s1 + s2) ≠ 0).
  { apply Qc_pos_ne0, Qcplus_nonneg_pos; [done|]. by apply Qcplus_pos_pos. }
  f_equal; [ring|]. field. split; [done|].
  by replace (shares r + s1 + s2) with (shares r + (s1 + s2)) by ring.
Qed.

Lemma upserted_twice_found rows sym i r s1 c1 s2 c2 :
  find_row rows sym = Some (i, r) →
  0 ≤ shares r → 0 < s1 → 0 < s2 →
  upserted (upserted rows sym s1 c1) sym s2 c2
  = <[i := merged (merged r s1 c1) s2 c2]> rows.
Proof.
  intros Hf Hr Hs1 Hs2.
  rewrite (upserted_found rows sym s1 c1 i r) by by auto using Qcplus_nonneg_pos.
  rewrite (upserted_found _ sym s2 c2 i (merged r s1 c1)).
  - apply list_insert_insert_eq.
  - by apply (find_row_insert rows sym i r).
  - cbn [merged shares]. apply Qcplus_nonneg_pos; [|done].
    apply Qcplus_nonneg_nonneg; [done|]. by apply Qclt_le_weak.
Qed.

Lemma upserted_comm rows sym s1 c1 s2 c2 :
  strip (upper sym) = upper sym →
  (∀ i r, find_row rows sym = Some (i, r) → 0 ≤ shares r) →
  0 < s1 → 0 < s2 →
  upserted (upserted rows sym s1 c1) sym s2 c2
  = upserted (upserted rows sym s2 c2) sym s1 c1.
Proof.
  intros Hsym Hheld Hs1 Hs2.
  destruct (find_row rows sym) as [[i r]|] eqn:Hf.
  - rewrite !(upserted_twice_found rows sym i r) by eauto.
    rewrite !merged_twice by eauto.
    by rewrite (Qcplus_comm s1 s2), (Qcplus_comm (s1 * c1) (s2 * c2)).
  - rewrite !upserted_twice_new by by auto using Qcplus_pos_pos.
    by rewrite (Qcplus_comm s1 s2), (Qcplus_comm (s1 * c1) (s2 * c2)).
Qed.

(** C2, as it holds.  Two valid entries of [add_stock] for one symbol
    that is not held yet, typed in either order into worlds with the
    same data file: all four runs end normally and the holdings read
    afterwards are the same whichever entry came first, the former rows
    followed by one row for the symbol.  One order leaves
    [s1 + s2] shares at [(s1 * c1 + s2 * c2) / (s1 + s2)], the other
    [s2 + s1] shares at [(s2 * c2 + s1 * c1) / (s2 + s1)]: the same
    sums with their operands exchanged, so that nothing but the
    commutativity of the addition makes them equal. *)
Theorem add_stock_order_independent_when_new `{Runtime}
    w w' rows t1 a1 b1 t2 a2 b2 rest rest' sym s1 c1 s2 c2 :
  holdings w = Ok rows →
  data_file w' = data_file w →
  stdin w = t1 :: a1 :: b1 :: t2 :: a2 :: b2 :: rest →
  stdin w' = t2 :: a2 :: b2 :: t1 :: a1 :: b1 :: rest' →
  typed t1 a1 b1 sym s1 c1 → typed t2 a2 b2 sym s2 c2 →
  nonempty sym = true →
  0 < s1 → 0 ≤ c1 → 0 < s2 → 0 ≤ c2 →
  find_row rows sym = None →
  let w2 := (add_stock (add_stock w).2).2 in
  let w2' := (add_stock (add_stock w').2).2 in
  (add_stock w).1 = Ok tt ∧ (add_stock (add_stock w).2).1 = Ok tt
  ∧ (add_stock w').1 = Ok tt ∧ (add_stock (add_stock w').2).1 = Ok tt
  ∧ holdings w2
    = Ok (rows ++ [new_row sym (s1 + s2) ((s1 * c1 + s2 * c2) / (s1 + s2))])
  ∧ holdings w2'
    = Ok (rows ++ [new_row sym (s2 + s1) ((s2 * c2 + s1 * c1) / (s2 + s1))])
  ∧ holdings w2' = holdings w2
  ∧ data_file w2' = data_file w2.
Proof.
  intros Hh Hfile Hin Hin' Hty1 Hty2 Hne Hs1 Hc1 Hs2 Hc2 Hnone w2 w2'.
  assert (Hh' : holdings w' = Ok rows) by by rewrite (holdings_data_file w).
  assert (Hsym : strip (upper sym) = upper sym).
  { destruct Hty1 as (<- & _). apply typed_symbol_key. }
  destruct (add_stock_valid_holdings w rows t1 a1 b1 (t2 :: a2 :: b2 :: rest)
              sym s1 c1) as (Hr1 & Hin1 & _ & Hh1); [done..|].
  destruct (add_stock_valid_holdings _ _ t2 a2 b2 rest sym s2 c2 Hh1)
    as (Hr2 & _ & Hf2 & Hh2); [done..|].
  destruct (add_stock_valid_holdings w' rows t2 a2 b2 (t1 :: a1 :: b1 :: rest')
              sym s2 c2) as (Hr1' & Hin1' & _ & Hh1'); [done..|].
  destruct (add_stock_valid_holdings _ _ t1 a1 b1 rest' sym s1 c1 Hh1')
    as (Hr2' & _ & Hf2' & Hh2'); [done..|].
  subst w2 w2'. rewrite Hf2, Hf2', Hh2, Hh2'.
  rewrite (upserted_twice_new rows sym s1 c1 s2 c2)
    by by auto using Qcplus_pos_pos.
  rewrite (upserted_twice_new rows sym s2 c2 s1 c1)
    by by auto using Qcplus_pos_pos.
  split_and!; [done..| |];
    by rewrite (Qcplus_comm s2 s1), (Qcplus_comm (s2 * c2) (s1 * c1)).
Qed.

(** In exact arithmetic the order does not matter either for a symbol
    that is held with shares that are not negative; in floating point
    the two orders then round differently. *)
Lemma add_stock_order_exact `{Runtime}
    w w' rows t1 a1 b1 t2 a2 b2 rest rest' sym s1 c1 s2 c2 :
  holdings w = Ok rows →
  data_file w' = data_file w →
  stdin w = t1 :: a1 :: b1 :: t2 :: a2 :: b2 :: rest →
  stdin w' = t2 :: a2 :: b2 :: t1 :: a1 :: b1 :: rest' →
  typed t1 a1 b1 sym s1 c1 → typed t2 a2 b2 sym s2 c2 →
  nonempty sym = true →
  0 < s1 → 0 ≤ c1 → 0 < s2 → 0 ≤ c2 →
  (∀ i r, find_row rows sym = Some (i, r) → 0 ≤ shares r) →
  holdings (add_stock (add_stock w').2).2
  = holdings (add_stock (add_stock w).2).2.
Proof.
  intros Hh Hfile Hin Hin' Hty1 Hty2 Hne Hs1 Hc1 Hs2 Hc2 Hheld.
  assert (Hh' : holdings w' = Ok rows) by by rewrite (holdings_data_file w).
  assert (Hsym : strip (upper sym) = upper sym).
  { destruct Hty1 as (<- & _). apply typed_symbol_key. }
  destruct (add_stock_valid_holdings w rows t1 a1 b1 (t2 :: a2 :: b2 :: rest)
              sym s1 c1) as (Hr1 & Hin1 & _ & Hh1); [done..|].
  destruct (add_stock_valid_holdings _ _ t2 a2 b2 rest sym s2 c2 Hh1)
    as (Hr2 & _ & Hf2 & Hh2); [done..|].
  destruct (add_stock_valid_holdings w' rows t2 a2 b2 (t1 :: a1 :: b1 :: rest')
              sym s2 c2) as (Hr1' & Hin1' & _ & Hh1'); [done..|].
  destruct (add_stock_valid_holdings _ _ t1 a1 b1 rest' sym s1 c1 Hh1')
    as (Hr2' & _ & Hf2' & Hh2'); [done..|].
  rewrite Hh2, Hh2'.
  by rewrite (upserted_comm rows sym s1 c1 s2 c2).
Qed.

(* ================================================================= *)
(** ** Entries that [add_stock] refuses *)

Section Refusal.
Context `{Runtime}.

(** When the data file cannot be loaded [add_stock] stops there. *)
Lemma add_stock_load_raises w e :
  holdings w = Raise e → add_stock w = (Raise e, w).
Proof.
  intros Hh. unfold add_stock. unfold bind at 1.
  by rewrite load_portfolio_run, Hh.
Qed.

Lemma add_stock_no_symbol w rows t rest :
  holdings w = Ok rows → stdin w = t :: rest →
  nonempty (upper (strip t)) = false →
  add_stock w
  = (Ok tt,
     {| data_file := data_file w; stdin := rest;
        stdout := stdout w ++ [Prompt "Enter symbol (e.g., AAPL): ";
                               Text "No symbol entered."];
        requests := requests w |}).
Proof.
  intros Hh Hin Hsym. unfold add_stock. unfold bind at 1.
  rewrite load_portfolio_run, Hh.
  destruct w as [f i o q]; simpl in Hin; subst i.
  unfold bind at 1. unfold input at 1, bind at 1, print at 1. cbn [stdin].
  rewrite Hsym. unfold print. cbn. by rewrite <- !(assoc_L (++)).
Qed.

Lemma add_stock_no_shares w rows t a rest sh :
  holdings w = Ok rows → stdin w = t :: a :: rest →
  nonempty (upper (strip t)) = true →
  float_of_str (strip a) = Some sh → sh ≤ 0 →
  add_stock w
  = (Ok tt,
     {| data_file := data_file w; stdin := rest;
        stdout := stdout w ++ [Prompt "Enter symbol (e.g., AAPL): ";
                               Prompt "Enter shares (e.g., 3 or 3.5): ";
                               Text "Shares must be > 0."];
        requests := requests w |}).
Proof.
  intros Hh Hin Hsym Ha Hsh. unfold add_stock. unfold bind at 1.
  rewrite load_portfolio_run, Hh.
  destruct w as [f i o q]; simpl in Hin; subst i.
  unfold bind at 1. unfold input at 1, bind at 1, print at 1. cbn [stdin].
  rewrite Hsym. cbn [negb].
  unfold bind at 1. unfold input at 1, bind at 1, print at 1. cbn [stdin].
  rewrite Ha, bool_decide_eq_true_2 by done.
  unfold print. cbn. by rewrite <- !(assoc_L (++)).
Qed.

Lemma add_stock_negative_cost w rows t a b rest sh cost :
  holdings w = Ok rows → stdin w = t :: a :: b :: rest →
  nonempty (upper (strip t)) = true →
  float_of_str (strip a) = Some sh → 0 < sh →
  float_of_str (strip b) = Some cost → cost < 0 →
  add_stock w
  = (Ok tt,
     {| data_file := data_file w; stdin := rest;
        stdout := stdout w ++ [Prompt "Enter symbol (e.g., AAPL): ";
                               Prompt "Enter shares (e.g., 3 or 3.5): ";
                               Prompt "Enter your average cost per share: ";
                               Text "Cost cannot be negative."];
        requests := requests w |}).
Proof.
  intros Hh Hin Hsym Ha Hsh Hb Hcost. unfold add_stock. unfold bind at 1.
  rewrite load_portfolio_run, Hh.
  destruct w as [f i o q]; simpl in Hin; subst i.
  unfold bind at 1. unfold input at 1, bind at 1, print at 1. cbn [stdin].
  rewrite Hsym. cbn [negb].
  unfold bind at 1. unfold input at 1, bind at 1, print at 1. cbn [stdin].
  rewrite Ha, bool_decide_eq_false_2 by by apply Qclt_nge.
  unfold bind at 1. unfold input at 1, bind at 1, print at 1. cbn [stdin].
  rewrite Hb, bool_decide_eq_true_2 by done.
  unfold print. cbn. by rewrite <- !(assoc_L (++)).
Qed.

(** A line that [float] refuses is reported in the same way. *)
Lemma add_stock_invalid_shares w rows t a rest :
  holdings w = Ok rows → stdin w = t :: a :: rest →
  nonempty (upper (strip t)) = true →
  float_of_str (strip a) = None →
  add_stock w
  = (Ok tt,
     {| data_file := data_file w; stdin := rest;
        stdout := stdout w ++ [Prompt "Enter symbol (e.g., AAPL): ";
                               Prompt "Enter shares (e.g., 3 or 3.5): ";
                               Text "Invalid shares."];
        requests := requests w |}).
Proof.
  intros Hh Hin Hsym Ha. unfold add_stock. unfold bind at 1.
  rewrite load_portfolio_run, Hh.
  destruct w as [f i o q]; simpl in Hin; subst i.
  unfold bind at 1. unfold input at 1, bind at 1, print at 1. cbn [stdin].
  rewrite Hsym. cbn [negb].
  unfold bind at 1. unfold input at 1, bind at 1, print at 1. cbn [stdin].
  rewrite Ha. unfold print. cbn. by rewrite <- !(assoc_L (++)).
Qed.
End Refusal.

(** C3. An entry whose symbol is empty, whose shares are not positive or
    whose cost is negative: the data file is left exactly as it was,
    so nothing was saved and the holdings are those of before; and when
    the data file loads, [add_stock] ends normally, having printed the
    refusal as its last line. *)
Theorem add_stock_refusal_leaves_store `{Runtime} w t a b rest sh cost :
  stdin w = t :: a :: b :: rest →
  float_of_str (strip a) = Some sh →
  float_of_str (strip b) = Some cost →
  upper (strip t) = "" ∨ sh ≤ 0 ∨ cost < 0 →
  data_file (add_stock w).2 = data_file w
  ∧ holdings (add_stock w).2 = holdings w
  ∧ requests (add_stock w).2 = requests w
  ∧ ∀ rows, holdings w = Ok rows →
      (add_stock w).1 = Ok tt
      ∧ ∃ prompts msg,
          stdout (add_stock w).2 = stdout w ++ prompts ++ [Text msg]
          ∧ msg ∈ refusals
          ∧ Forall (λ l, ∃ p, l = Prompt p) prompts.
Proof.
  intros Hin Ha Hb Hbad.
  assert (Hrun : data_file (add_stock w).2 = data_file w
    ∧ requests (add_stock w).2 = requests w
    ∧ ∀ rows, holdings w = Ok rows →
      (add_stock w).1 = Ok tt
      ∧ ∃ prompts msg,
          stdout (add_stock w).2 = stdout w ++ prompts ++ [Text msg]
          ∧ msg ∈ refusals
          ∧ Forall (λ l, ∃ p, l = Prompt p) prompts).
  { destruct (holdings w) as [rows|e] eqn:Hh.
    2:{ rewrite (add_stock_load_raises w e) by done. done. }
    destruct (nonempty (upper (strip t))) eqn:Hsym.
    2:{ rewrite (add_stock_no_symbol w rows t (a :: b :: rest)) by done.
        split_and!; [done..|]. intros _ _. split; [done|].
        eexists [_], _. split_and!; [done| |].
        - unfold refusals. repeat first [apply list_elem_of_here|apply list_elem_of_further].
        - repeat constructor; eauto. }
    destruct (decide (sh ≤ 0)) as [Hsh|Hsh].
    { rewrite (add_stock_no_shares w rows t a (b :: rest) sh) by done.
      split_and!; [done..|]. intros _ _. split; [done|].
      eexists [_; _], _. split_and!; [done| |].
      - unfold refusals. repeat first [apply list_elem_of_here|apply list_elem_of_further].
      - repeat constructor; eauto. }
    apply Qclt_nge in Hsh.
    destruct Hbad as [Hbad|[Hbad|Hbad]].
    - rewrite Hbad in Hsym. discriminate.
    - by apply Qcle_ngt in Hbad.
    - rewrite (add_stock_negative_cost w rows t a b rest sh cost) by done.
      split_and!; [done..|]. intros _ _. split; [done|].
      eexists [_; _; _], _. split_and!; [done| |].
      + unfold refusals. repeat first [apply list_elem_of_here|apply list_elem_of_further].
      + repeat constructor; eauto. }
  destruct Hrun as (Hf & Hq & Hrep). split_and!; try done.
  by apply holdings_data_file.
Qed.

(* ================================================================= *)
(** ** What an entry leaves untouched *)

Lemma upserted_other_rows rows sym sh cost j x :
  strip (upper sym) = upper sym →
  rows !! j = Some x → key x ≠ upper sym →
  upserted rows sym sh cost !! j = Some x.
Proof.
  intros Hsym Hj Hx. unfold upserted.
  destruct (find_row rows sym) as [[i r]|] eqn:Hf.
  - apply find_row_Some in Hf as (Hi & Hr & _).
    rewrite list_lookup_insert_ne; [done|].
    intros ->. rewrite Hj in Hi. injection Hi as ->. congruence.
  - by apply lookup_app_l_Some.
Qed.

Lemma upserted_row_symbol r sh cost :
  symbol (if decide (0 < shares r + sh) then merged r sh cost
          else set_shares (shares r + sh) r) = symbol r
  ∧ extra (if decide (0 < shares r + sh) then merged r sh cost
           else set_shares (shares r + sh) r) = extra r
  ∧ shares (if decide (0 < shares r + sh) then merged r sh cost
            else set_shares (shares r + sh) r) = shares r + sh.
Proof. by case_decide. Qed.

Lemma upserted_symbols rows sym sh cost :
  symbol <$> take (length rows) (upserted rows sym sh cost)
  = symbol <$> rows.
Proof.
  unfold upserted. destruct (find_row rows sym) as [[i r]|] eqn:Hf.
  - apply find_row_Some in Hf as (Hi & _).
    rewrite take_ge by by rewrite length_insert.
    rewrite list_fmap_insert. apply list_insert_id.
    rewrite list_lookup_fmap, Hi. simpl. f_equal. symmetry.
    apply upserted_row_symbol.
  - by rewrite take_app_length.
Qed.

(** C10. A valid entry of [add_stock] for the symbol [sym]: either no row
    had that symbol and one row is appended at the end, or the first row
    with that symbol is replaced, in place, by a row with the same
    symbol; every row with another symbol is found at its former place
    with its former symbol, shares and cost basis, and the former rows
    keep their order. *)
Theorem add_stock_frame `{Runtime} w rows t a b rest sym sh cost :
  holdings w = Ok rows →
  stdin w = t :: a :: b :: rest →
  typed t a b sym sh cost →
  nonempty sym = true → 0 < sh → 0 ≤ cost →
  ∃ rows',
    (add_stock w).1 = Ok tt
    ∧ holdings (add_stock w).2 = Ok rows'
    ∧ ((find_row rows sym = None ∧ rows' = rows ++ [new_row sym sh cost])
       ∨ (∃ i r r',
            find_row rows sym = Some (i, r) ∧ rows' = <[i := r']> rows
            ∧ symbol r' = symbol r ∧ extra r' = extra r
            ∧ shares r' = shares r + sh))
    ∧ (∀ j x, rows !! j = Some x → key x ≠ sym → rows' !! j = Some x)
    ∧ symbol <$> take (length rows) rows' = symbol <$> rows.
Proof.
  intros Hh Hin Hty Hne Hsh Hcost.
  destruct (add_stock_valid_holdings w rows t a b rest sym sh cost)
    as (Hr & _ & _ & Hh'); [done..|].
  assert (Hup : upper sym = sym).
  { destruct Hty as (<- & _). apply upper_idem. }
  assert (Hsym : strip (upper sym) = upper sym).
  { destruct Hty as (<- & _). apply typed_symbol_key. }
  exists (upserted rows sym sh cost). split_and!; [done|done| | |].
  - unfold upserted. destruct (find_row rows sym) as [[i r]|]; [|by left].
    right. eexists i, r, _. split; [done|]. split; [done|].
    apply upserted_row_symbol.
  - intros j x Hj Hx. apply upserted_other_rows; [done|done|]. by rewrite Hup.
  - apply upserted_symbols.
Qed.

(* ================================================================= *)
(** ** One row for each symbol *)

Lemma upserted_keys_found rows sym sh cost i r :
  find_row rows sym = Some (i, r) →
  key <$> upserted rows sym sh cost = key <$> rows.
Proof.
  intros Hf. unfold upserted. rewrite Hf.
  apply find_row_Some in Hf as (Hi & _).
  rewrite list_fmap_insert. apply list_insert_id.
  rewrite list_lookup_fmap, Hi. simpl. f_equal. unfold key. f_equal.
  symmetry. apply upserted_row_symbol.
Qed.

Lemma upserted_keys_NoDup rows sym sh cost :
  strip (upper sym) = upper sym →
  NoDup (key <$> rows) → NoDup (key <$> upserted rows sym sh cost).
Proof.
  intros Hsym Hnd. destruct (find_row rows sym) as [[i r]|] eqn:Hf.
  - by rewrite (upserted_keys_found rows sym sh cost i r).
  - rewrite upserted_absent by done. rewrite fmap_app. apply NoDup_app.
    split_and!; [done| |apply NoDup_singleton].
    intros k Hk Hk'. apply list_elem_of_singleton in Hk'. subst k.
    apply list_elem_of_fmap in Hk as (x & Hx & Hin).
    apply find_row_None in Hf. rewrite Forall_forall in Hf.
    apply (Hf x Hin). unfold key in *. cbn [new_row symbol] in Hx. congruence.
Qed.

Lemma upserted_trimmed rows sym sh cost :
  strip sym = sym →
  Forall trimmed rows → Forall trimmed (upserted rows sym sh cost).
Proof.
  intros Hsym Hrows. unfold upserted.
  destruct (find_row rows sym) as [[i r]|] eqn:Hf.
  - apply find_row_Some in Hf as (Hi & _).
    apply Forall_insert; [done|].
    pose proof (Forall_lookup_1 _ _ _ _ Hrows Hi) as Hr.
    unfold trimmed in *.
    by rewrite (proj1 (upserted_row_symbol r sh cost)).
  - apply Forall_app. split; [done|]. by repeat constructor.
Qed.

Lemma trimmed_normalized_symbol rows :
  Forall trimmed rows → normalized_symbol <$> rows = key <$> rows.
Proof.
  induction 1 as [|r rows Hr _ IH]; [done|].
  rewrite !fmap_cons, IH. f_equal.
  unfold normalized_symbol, key. by rewrite strip_upper, Hr.
Qed.

(** With one row for each key, [find_row] finds the row that has the
    key of the query, wherever it is. *)
Lemma find_row_unique rows q i r :
  NoDup (key <$> rows) →
  find_row rows q = Some (i, r) ↔ rows !! i = Some r ∧ key r = strip (upper q).
Proof.
  intros Hnd. rewrite find_row_Some. split; [by intros (? & ? & _)|].
  intros [Hi Hr]. split_and!; [done..|].
  intros j x Hj Hlt Hx.
  assert (j = i); [|lia].
  apply (NoDup_lookup (key <$> rows) j i (key x)); [done|..].
  - by rewrite list_lookup_fmap, Hj.
  - rewrite list_lookup_fmap, Hi. simpl. congruence.
Qed.

(** C9, as it holds.  [add_stock] keeps the rows at one for each
    upper-case symbol when the loaded rows are so (loading itself removes
    no duplicate and trims no symbol); rows with trimmed symbols stay
    trimmed, and then there is one row for each normalised symbol;
    [find_row] compares the upper-case stored symbol with the trimmed
    upper-case query and, with one row for each key, returns the row
    with that key if there is one. *)
Theorem add_stock_keeps_one_row_per_key `{Runtime}
    w rows t a b rest sym sh cost :
  holdings w = Ok rows →
  stdin w = t :: a :: b :: rest →
  typed t a b sym sh cost →
  nonempty sym = true → 0 < sh → 0 ≤ cost →
  NoDup (key <$> rows) →
  ∃ rows',
    holdings (add_stock w).2 = Ok rows'
    ∧ NoDup (key <$> rows')
    ∧ (Forall trimmed rows →
       Forall trimmed rows' ∧ NoDup (normalized_symbol <$> rows'))
    ∧ ∀ q i r,
        find_row rows' q = Some (i, r)
        ↔ rows' !! i = Some r ∧ key r = strip (upper q).
Proof.
  intros Hh Hin Hty Hne Hsh Hcost Hnd.
  destruct (add_stock_valid_holdings w rows t a b rest sym sh cost)
    as (_ & _ & _ & Hh'); [done..|].
  assert (Hsym : strip (upper sym) = upper sym).
  { destruct Hty as (<- & _). apply typed_symbol_key. }
  assert (Hstrip : strip sym = sym).
  { destruct Hty as (<- & _). by rewrite <- strip_upper, strip_idem. }
  assert (Hnd' : NoDup (key <$> upserted rows sym sh cost))
    by by apply upserted_keys_NoDup.
  exists (upserted rows sym sh cost). split_and!; [done|done| |].
  - intros Htr. pose proof (upserted_trimmed rows sym sh cost Hstrip Htr).
    split; [done|]. by rewrite trimmed_normalized_symbol.
  - intros q i r. by apply find_row_unique.
Qed.

Section Duplicates.
#[local] Existing Instance demo_runtime.

(** Counterexample to C9: both rows of [twice_listed] are loaded as AAPL,
    and both are still there once MSFT is added. *)
Lemma load_keeps_duplicate_symbols :
  holdings twice_listed
  = Ok [new_row "AAPL" (of_Z 1) (of_Z 10); new_row "AAPL" (of_Z 2) (of_Z 20)]
  ∧ holdings (add_stock twice_listed).2
    = Ok [new_row "AAPL" (of_Z 1) (of_Z 10); new_row "AAPL" (of_Z 2) (of_Z 20);
          new_row "MSFT" (of_Z 1) (of_Z 50)]
  ∧ ¬ NoDup (normalized_symbol <$>
               [new_row "AAPL" (of_Z 1) (of_Z 10);
                new_row "AAPL" (of_Z 2) (of_Z 20);
                new_row "MSFT" (of_Z 1) (of_Z 50)]).
Proof.
  split_and!; [by_compute|by_compute|].
  intros Hnd. apply NoDup_cons in Hnd as [Hin _]. apply Hin. by left.
Qed.
End Duplicates.

(* ================================================================= *)
(** ** The valuation pass *)

Lemma fresh_keys_not_seen seen ks k : k ∈ fresh_keys seen ks → k ∉ seen.
Proof.
  revert seen. induction ks as [|k' ks IH]; intros seen; simpl.
  - by intros ?%elem_of_nil.
  - case_decide as Hk'; [by apply IH|].
    intros [->|Hin]%elem_of_cons; [done|].
    apply IH in Hin. set_solver.
Qed.

Lemma fresh_keys_elem seen ks k :
  k ∈ fresh_keys seen ks ↔ k ∈ ks ∧ k ∉ seen.
Proof.
  revert seen. induction ks as [|k' ks IH]; intros seen; simpl.
  - rewrite !elem_of_nil. tauto.
  - case_decide as Hk'.
    + rewrite IH, elem_of_cons. split; [tauto|]. intros [[->|?] ?]; tauto.
    + rewrite !elem_of_cons, IH. split.
      * intros [->|[? ?]]; [tauto|]. split; [tauto|]. set_solver.
      * intros [[->|?] ?]; [tauto|].
        destruct (decide (k = k')); [tauto|]. right. split; [done|]. set_solver.
Qed.

Lemma fresh_keys_NoDup seen ks : NoDup (fresh_keys seen ks).
Proof.
  revert seen. induction ks as [|k ks IH]; intros seen; simpl.
  - constructor.
  - case_decide; [apply IH|]. constructor; [|apply IH].
    intros Hin%fresh_keys_not_seen. set_solver.
Qed.

Section Valuation.
Context `{Runtime}.

(** One turn of the loop: the price is requested unless the cache holds
    one for the key, a line is printed and the totals grow. *)
Lemma view_row_run r p w :
  view_row r p w
  = let cache :=
      match price_cache p !! key r with
      | None =>
          <[key r := yf_last_price (requests w) (strip (upper (key r)))]>
            (price_cache p)
      | Some _ => price_cache p
      end in
    (Ok {| price_cache := cache;
           grand_value := grand_value p + row_value (cached cache r) r;
           grand_cost := grand_cost p + row_cost r |},
     {| data_file := data_file w; stdin := stdin w;
        stdout := stdout w ++ [row_line (cached cache r) r];
        requests := match price_cache p !! key r with
                    | None => requests w ++ [key r]
                    | Some _ => requests w
                    end |}).
Proof.
  unfold view_row, key, bind, get_live_price, ret, print, cached, key,
    row_line, row_value, row_cost, key.
  destruct (price_cache p !! upper (symbol r)); reflexivity.
Qed.

Lemma cached_weaken (c c' : gmap string (option num)) r :
  c ⊆ c' → is_Some (c !! key r) → cached c' r = cached c r.
Proof.
  intros Hsub [v Hv]. unfold cached.
  by rewrite (lookup_weaken _ _ _ _ Hv Hsub), Hv.
Qed.

Lemma view_rows_run rows : ∀ p w, ∃ p' w',
  fold_M view_row rows p w = (Ok p', w')
  ∧ data_file w' = data_file w ∧ stdin w' = stdin w
  ∧ price_cache p ⊆ price_cache p'
  ∧ Forall (λ r, is_Some (price_cache p' !! key r)) rows
  ∧ stdout w'
    = stdout w ++ ((λ r, row_line (cached (price_cache p') r) r) <$> rows)
  ∧ grand_value p'
    = grand_value p
      + total ((λ r, row_value (cached (price_cache p') r) r) <$> rows)
  ∧ grand_cost p' = grand_cost p + total (row_cost <$> rows)
  ∧ requests w'
    = requests w ++ fresh_keys (dom (price_cache p)) (key <$> rows)
  ∧ ∀ i k,
      fresh_keys (dom (price_cache p)) (key <$> rows) !! i = Some k →
      price_cache p' !! k
      = Some (answer (requests w)
                (fresh_keys (dom (price_cache p)) (key <$> rows)) i k).
Proof.
  induction rows as [|r rows IH]; intros p w.
  { exists p, w. cbn [fold_M fmap list_fmap total fresh_keys].
    rewrite !app_nil_r, !Qcplus_0_r. split_and!; done. }
  cbn [fold_M]. unfold bind at 1. rewrite view_row_run. cbv zeta.
  set (c1 := match price_cache p !! key r with
             | None => <[key r := _]> (price_cache p)
             | Some _ => price_cache p
             end).
  set (p1 := {| price_cache := c1; grand_value := _; grand_cost := _ |}).
  set (w1 := {| data_file := data_file w; stdin := _; stdout := _;
                requests := _ |}).
  destruct (IH p1 w1)
    as (p' & w' & Hrun & Hf & Hin & Hsub & Hall & Hout & Hgv & Hgc & Hreq & Hans).
  assert (Hsub0 : price_cache p ⊆ c1).
  { subst c1. destruct (price_cache p !! key r) eqn:Hk; [done|].
    by apply insert_subseteq. }
  assert (Hk1 : is_Some (c1 !! key r)).
  { subst c1. destruct (price_cache p !! key r) eqn:Hk; [by rewrite Hk|].
    rewrite lookup_insert_eq. eauto. }
  assert (Hc : cached (price_cache p') r = cached c1 r)
    by by apply cached_weaken.
  exists p', w'. split; [done|]. cbn [data_file stdin] in Hf, Hin.
  split_and!; try done.
  - by etrans.
  - constructor; [|done]. destruct Hk1 as [v Hv].
    rewrite (lookup_weaken _ _ _ _ Hv Hsub). eauto.
  - rewrite Hout. cbn [stdout w1 fmap list_fmap].
    rewrite <- (assoc_L (++)). cbn [app]. by rewrite Hc.
  - rewrite Hgv. cbn [grand_value p1 fmap list_fmap total]. rewrite Hc. ring.
  - rewrite Hgc. cbn [grand_cost p1 fmap list_fmap total]. ring.
  - rewrite Hreq. cbn [requests w1 price_cache p1 fmap list_fmap fresh_keys].
    subst c1. destruct (price_cache p !! key r) eqn:Hk.
    + rewrite decide_True; [done|]. apply elem_of_dom. by rewrite Hk.
    + rewrite decide_False by by apply not_elem_of_dom.
      rewrite dom_insert_L, <- (assoc_L (++)). done.
  - intros i k. cbn [fmap list_fmap fresh_keys].
    cbn [requests w1 price_cache p1] in Hans.
    subst c1. destruct (price_cache p !! key r) eqn:Hk.
    + rewrite decide_True by (apply elem_of_dom; by rewrite Hk).
      apply Hans.
    + rewrite decide_False by by apply not_elem_of_dom.
      rewrite dom_insert_L in Hans. destruct i as [|i]; cbn [lookup list_lookup].
      * intros [= <-]. unfold answer. cbn [take]. rewrite app_nil_r.
        apply (lookup_weaken _ _ _ _ (lookup_insert_eq _ _ _) Hsub).
      * intros Hi. rewrite (Hans i k Hi). unfold answer.
        cbn [take]. by rewrite <- (assoc_L (++)).
Qed.
End Valuation.

Section Table.
Context `{Runtime}.

Lemma percent_lines_run tv tc w :
  ((if truthy tv && truthy tc
    then change_pct <- lift (py_div (tv - tc) tc) ;;
         print (Change (change_pct * of_Z 100))
    else ret tt) ;;; print (Text "")) w
  = (Ok tt,
     {| data_file := data_file w; stdin := stdin w;
        stdout := stdout w ++ percent_lines tv tc ++ [Text ""];
        requests := requests w |}).
Proof.
  unfold percent_lines. destruct (truthy tv && truthy tc) eqn:Hg.
  - apply andb_true_iff in Hg as [_ Htc%truthy_true].
    unfold bind, lift, print, ret. rewrite py_div_not_zero by done.
    cbn. by rewrite <- (assoc_L (++)).
  - unfold bind, print, ret. by cbn.
Qed.

(** The whole pass over rows: it ends normally; [c] is the price cache
    at the end of the loop. *)
Lemma valuation_run rows w : ∃ c,
  let tv := total ((λ r, row_value (cached c r) r) <$> rows) in
  let tc := total (row_cost <$> rows) in
  valuation rows w
  = (Ok tt,
     {| data_file := data_file w; stdin := stdin w;
        stdout := stdout w ++ table_head
                    ++ ((λ r, row_line (cached c r) r) <$> rows)
                    ++ table_foot tv tc;
        requests := requests w ++ first_seen (key <$> rows) |})
  ∧ Forall (λ r, is_Some (c !! key r)) rows
  ∧ ∀ i k,
      first_seen (key <$> rows) !! i = Some k →
      c !! k = Some (answer (requests w) (first_seen (key <$> rows)) i k).
Proof.
  set (w0 := {| data_file := data_file w; stdin := stdin w;
                stdout := stdout w ++ table_head; requests := requests w |}).
  destruct (view_rows_run rows
              {| price_cache := ∅; grand_value := 0; grand_cost := 0 |} w0)
    as (p' & w' & Hrun & Hf & Hin & _ & Hall & Hout & Hgv & Hgc & Hreq & Hans).
  cbn [price_cache grand_value grand_cost] in *.
  rewrite dom_empty_L in Hreq, Hans. rewrite Qcplus_0_l in Hgv, Hgc.
  exists (price_cache p'). cbv zeta. split_and!; [|done|done].
  unfold valuation.
  do 5 (unfold bind at 1; unfold print at 1).
  unfold bind at 1.
  replace {| data_file := _; stdin := _; stdout := _; requests := _ |}
    with w0.
  2:{ subst w0. cbn. by rewrite <- !(assoc_L (++)). }
  rewrite Hrun.
  do 2 (unfold bind at 1; unfold print at 1).
  rewrite percent_lines_run. cbn [data_file stdin stdout requests].
  rewrite Hf, Hin, Hout, Hreq, Hgv, Hgc. subst w0.
  cbn [data_file stdin stdout requests]. unfold table_foot, first_seen.
  by rewrite <- !(assoc_L (++)).
Qed.

Lemma view_portfolio_rows w rows :
  holdings w = Ok rows → rows ≠ [] → view_portfolio w = valuation rows w.
Proof.
  intros Hh Hne. unfold view_portfolio. unfold bind at 1.
  rewrite load_portfolio_run, Hh. by destruct rows.
Qed.

Lemma view_portfolio_empty w :
  holdings w = Ok [] →
  view_portfolio w
  = (Ok tt,
     {| data_file := data_file w; stdin := stdin w;
        stdout := stdout w ++ [Text ""; Text "Portfolio is empty."];
        requests := requests w |}).
Proof.
  intros Hh. unfold view_portfolio. unfold bind at 1.
  rewrite load_portfolio_run, Hh. unfold bind, print. cbn.
  by rewrite <- (assoc_L (++)).
Qed.

Lemma view_portfolio_load_raises w e :
  holdings w = Raise e → view_portfolio w = (Raise e, w).
Proof.
  intros Hh. unfold view_portfolio. unfold bind at 1.
  by rewrite load_portfolio_run, Hh.
Qed.

(** What [float] raises. *)
Lemma py_float_raises x e :
  py_float x = Raise e → e = ValueError ∨ e = TypeError ∨ e = OverflowError.
Proof.
  destruct x as [|b|z|y|s|l|d]; cbn [py_float]; try done;
    try (intros [= <-]; by right; left).
  - case_bool_decide; [done|]. intros [= <-]. by right; right.
  - destruct (float_of_str s); [done|]. intros [= <-]. by left.
Qed.

(** Loading raises nothing but what [float] and [get] raise, and what
    reading the file raises. *)
Lemma normalize_row_raises v e :
  normalize_row v = Raise e →
  e ∈ [ValueError; TypeError; AttributeError; OverflowError].
Proof.
  destruct v as [| | | | | |d]; cbn [normalize_row];
    try (intros [= <-]; repeat first [apply list_elem_of_here|apply list_elem_of_further]).
  destruct (py_float _) eqn:E1.
  - destruct (py_float (py_or (default (PInt 0) (py_get "price" d)) _)) eqn:E2;
      [done|].
    intros [= <-]. apply py_float_raises in E2 as [-> | [-> | ->]];
      repeat first [apply list_elem_of_here|apply list_elem_of_further].
  - intros [= <-]. apply py_float_raises in E1 as [-> | [-> | ->]];
      repeat first [apply list_elem_of_here|apply list_elem_of_further].
Qed.

Lemma holdings_raises w e :
  holdings w = Raise e →
  e ∈ [ValueError; TypeError; AttributeError; OverflowError;
       UnicodeDecodeError; RecursionError].
Proof.
  unfold holdings, load_portfolio, bind, read_file, ret, lift. simpl.
  destruct (data_file w) as [|[]| |[| | | | |data|]]; simpl; try done;
    try (intros [= <-];
         repeat first [apply list_elem_of_here|apply list_elem_of_further]).
  induction data as [|v data IH]; simpl; [done|].
  destruct (normalize_row v) eqn:Ev.
  - destruct (for_each normalize_row data); [done|].
    intros [= <-]. by apply IH.
  - intros [= <-]. apply normalize_row_raises in Ev.
    rewrite !elem_of_cons in Ev. rewrite !elem_of_cons. tauto.
Qed.

Lemma holdings_no_division w : holdings w ≠ Raise ZeroDivisionError.
Proof.
  intros Hh%holdings_raises.
  repeat (apply elem_of_cons in Hh as [Hh|Hh]; [discriminate|]).
  by apply elem_of_nil in Hh.
Qed.
End Table.

Lemma first_seen_elem ks k : k ∈ first_seen ks ↔ k ∈ ks.
Proof. unfold first_seen. rewrite fresh_keys_elem. set_solver. Qed.

Lemma filter_eq_absent (l : list string) x :
  x ∉ l → filter (λ k, k = x) l = [].
Proof.
  induction l as [|k l IH]; [done|]. intros Hx.
  apply not_elem_of_cons in Hx as [Hk Hl].
  rewrite filter_cons, decide_False by done. by apply IH.
Qed.

Lemma NoDup_filter_one (l : list string) x :
  NoDup l → x ∈ l → length (filter (λ k, k = x) l) = 1%nat.
Proof.
  induction 1 as [|k l Hk Hnd IH]; [by intros ?%elem_of_nil|].
  rewrite filter_cons. intros [->|Hin]%elem_of_cons.
  - rewrite decide_True by done. by rewrite filter_eq_absent.
  - rewrite decide_False by (intros ->; done). by apply IH.
Qed.

(** C4. The valuation pass ends normally for every list of rows; with
    [live r] the live price the pass holds for the key of [r], it prints,
    in the order of the rows, one line for each row with the value
    [(live or 0) * shares], and the profit or loss
    [value - cost * shares]; the totals line shows the sum of the values
    and that sum minus the sum of the cost totals.  [live r] is the
    answer of [get_live_price] to the request made for the key of [r].
    [view_portfolio] runs this pass on the holdings it loads, unless
    there are none. *)
Theorem valuation_rows_and_totals `{Runtime} rows w :
  ∃ c : gmap string (option num),
    let live r := cached c r in
    let value r := default 0 (live r) * shares r in
    let cost_total r := price r * shares r in
    let total_value := total (value <$> rows) in
    let total_cost := total (cost_total <$> rows) in
    (valuation rows w).1 = Ok tt
    ∧ stdout (valuation rows w).2
      = stdout w ++ table_head
        ++ ((λ r, RowLine (key r) (shares r) (price r)
                    (match live r with Some x => Dollars x | None => NA end)
                    (value r) (value r - cost_total r)) <$> rows)
        ++ [Text rule; Totals total_value (total_value - total_cost)]
        ++ percent_lines total_value total_cost ++ [Text ""]
    ∧ (∀ r, r ∈ rows →
         ∃ i, first_seen (key <$> rows) !! i = Some (key r)
              ∧ live r = answer (requests w) (first_seen (key <$> rows)) i (key r))
    ∧ (holdings w = Ok rows → rows ≠ [] →
       view_portfolio w = valuation rows w).
Proof.
  destruct (valuation_run rows w) as (c & Hrun & Hall & Hans).
  exists c. cbv zeta in *.
  split_and!; [by rewrite Hrun|by rewrite Hrun| |].
  - intros r Hr.
    assert (Hk : key r ∈ first_seen (key <$> rows)).
    { apply first_seen_elem, list_elem_of_fmap. eauto. }
    apply list_elem_of_lookup in Hk as [i Hi]. exists i. split; [done|].
    unfold cached. by rewrite (Hans i (key r) Hi).
  - apply view_portfolio_rows.
Qed.

(** C5, as it holds.  In one run of [view_portfolio] the requests for
    live prices are the keys of the loaded rows, each once, in the order
    in which they first occur: for every row exactly one request bears
    its key, however many rows share it, and the price printed for a row
    is the one the cache holds for its key.  The key is the stored symbol
    in upper case, which is not trimmed; it is the normalised symbol when
    the stored symbols are trimmed. *)
Theorem view_portfolio_one_request_per_key `{Runtime} w rows :
  holdings w = Ok rows →
  requests (view_portfolio w).2 = requests w ++ first_seen (key <$> rows)
  ∧ NoDup (first_seen (key <$> rows))
  ∧ (∀ r, r ∈ rows →
       length (filter (λ k, k = key r) (first_seen (key <$> rows))) = 1%nat)
  ∧ (Forall trimmed rows → key <$> rows = normalized_symbol <$> rows)
  ∧ ∃ (c : gmap string (option num)) below,
      stdout (valuation rows w).2
      = stdout w ++ table_head
        ++ ((λ r, row_line (default None (c !! key r)) r) <$> rows) ++ below.
Proof.
  intros Hh. destruct (valuation_run rows w) as (c & Hrun & Hall & Hans).
  cbv zeta in Hrun. split_and!; [| | |by intros ?%trimmed_normalized_symbol|].
  - destruct rows as [|r rows].
    + rewrite view_portfolio_empty by done. cbn. by rewrite app_nil_r.
    + rewrite (view_portfolio_rows w (r :: rows)) by done. by rewrite Hrun.
  - apply fresh_keys_NoDup.
  - intros r Hr. apply NoDup_filter_one; [apply fresh_keys_NoDup|].
    apply first_seen_elem, list_elem_of_fmap. eauto.
  - exists c. eexists. rewrite Hrun. cbn [snd stdout]. done.
Qed.


(** C7. The percentage line is printed exactly when the total value and
    the total cost are both different from 0, and then it shows
    [(total value - total cost) / total cost * 100], a division whose
    divisor is not 0; the pass ends normally, and [view_portfolio] never
    raises [ZeroDivisionError]. *)
Theorem valuation_percentage_guard `{Runtime} rows w :
  ∃ (c : gmap string (option num)),
    let tv := total ((λ r, row_value (cached c r) r) <$> rows) in
    let tc := total (row_cost <$> rows) in
    (valuation rows w).1 = Ok tt
    ∧ (view_portfolio w).1 ≠ Raise ZeroDivisionError
    ∧ stdout (valuation rows w).2
      = stdout w ++ table_head
        ++ ((λ r, row_line (cached c r) r) <$> rows)
        ++ [Text rule; Totals tv (tv - tc)] ++ percent_lines tv tc ++ [Text ""]
    ∧ (tv ≠ 0 ∧ tc ≠ 0 →
       percent_lines tv tc = [Change ((tv - tc) / tc * of_Z 100)]
       ∧ py_div (tv - tc) tc = Ok ((tv - tc) / tc))
    ∧ (tv = 0 ∨ tc = 0 → percent_lines tv tc = []).
Proof.
  destruct (valuation_run rows w) as (c & Hrun & Hall & Hans).
  exists c. cbv zeta in *. rewrite Hrun. split_and!; [done| |done| |].
  - destruct (holdings w) as [rows'|e] eqn:Hh.
    + destruct rows' as [|r rows'].
      * by rewrite view_portfolio_empty.
      * rewrite (view_portfolio_rows w (r :: rows')) by done.
        destruct (valuation_run (r :: rows') w) as (c' & -> & _). done.
    + rewrite (view_portfolio_load_raises w e) by done. simpl.
      intros [= ->]. apply holdings_raises in Hh.
      repeat (apply elem_of_cons in Hh as [Hh|Hh]; [discriminate|]).
      by apply elem_of_nil in Hh.
  - intros [Htv Htc]. unfold percent_lines.
    rewrite (proj2 (truthy_true _) Htv), (proj2 (truthy_true _) Htc).
    split; [done|]. by apply py_div_not_zero.
  - intros Hz. unfold percent_lines.
    destruct (truthy _) eqn:E1; [|done].
    destruct (truthy (total (row_cost <$> rows))) eqn:E2; [|done].
    apply truthy_true in E1, E2. by destruct Hz.
Qed.

(* ================================================================= *)
(** ** What [load_portfolio] makes of the data file *)

Section Normalize.
Context `{Runtime}.

Lemma int_or_zero z : py_or (PInt z) (PInt 0) = PInt z.
Proof.
  unfold py_or, py_truth. case_bool_decide as Hz; cbn [negb]; [|done].
  by rewrite Hz.
Qed.

Lemma py_float_or_coerces v x :
  py_float (py_or (default (PInt 0) v) (PInt 0)) = Ok x → coerces v x.
Proof.
  destruct v as [[|b|z|y|s|l|d]|]; cbn [default from_option id coerces].
  - unfold py_or. cbn [py_truth]. rewrite float_zero. by intros [= <-].
  - unfold py_or. cbn [py_truth]. destruct b; [cbn; by intros [= <-]|].
    rewrite float_zero. by intros [= <-].
  - rewrite int_or_zero. cbn [py_float]. case_bool_decide; [|done].
    by intros [= <-].
  - rewrite float_or_zero. by intros [= <-].
  - unfold py_or. cbn [py_truth]. destruct (nonempty s).
    + cbn [py_float]. destruct (float_of_str s); [|done]. by intros [= <-].
    + rewrite float_zero. by intros [= <-].
  - unfold py_or. destruct l; cbn [py_truth]; [|done].
    rewrite float_zero. by intros [= <-].
  - unfold py_or. destruct d; cbn [py_truth]; [|done].
    rewrite float_zero. by intros [= <-].
  - rewrite int_or_zero, float_zero. by intros [= <-].
Qed.

Lemma py_float_or_numeric v :
  numeric v → ∃ x, py_float (py_or (default (PInt 0) v) (PInt 0)) = Ok x.
Proof.
  destruct v as [[|b|z|y|s|l|d]|]; cbn [default from_option id numeric]; intros Hv.
  - unfold py_or. cbn [py_truth]. rewrite float_zero. eauto.
  - unfold py_or. cbn [py_truth]. destruct b; [cbn; eauto|].
    rewrite float_zero. eauto.
  - rewrite int_or_zero. cbn [py_float].
    rewrite bool_decide_eq_true_2 by done. eauto.
  - rewrite float_or_zero. eauto.
  - unfold py_or. cbn [py_truth]. destruct Hv as [->|[x Hx]].
    + cbn [nonempty]. rewrite float_zero. eauto.
    + destruct (nonempty s); [|rewrite float_zero; eauto].
      cbn [py_float]. rewrite Hx. eauto.
  - subst l. unfold py_or. cbn [py_truth]. rewrite float_zero. eauto.
  - subst d. unfold py_or. cbn [py_truth]. rewrite float_zero. eauto.
  - rewrite int_or_zero, float_zero. eauto.
Qed.

Lemma normalize_row_Ok v r : normalize_row v = Ok r → normalizes v r.
Proof.
  destruct v as [| | | | | |d]; try discriminate. unfold normalize_row.
  destruct (py_float _) as [sh|] eqn:Esh; [|discriminate].
  destruct (py_float (py_or (default (PInt 0) (py_get "price" d)) _))
    as [pr|] eqn:Epr; [|discriminate].
  intros [= <-]. exists d. cbn [symbol shares price extra].
  split_and!; [done|done| | |done]; by apply py_float_or_coerces.
Qed.

Lemma normalize_row_loadable v : loadable v → ∃ r, normalize_row v = Ok r.
Proof.
  intros (d & -> & Hsh & Hpr). unfold normalize_row.
  destruct (py_float_or_numeric _ Hsh) as [sh ->].
  destruct (py_float_or_numeric _ Hpr) as [pr ->]. eauto.
Qed.

Lemma for_each_normalizes data rows :
  for_each normalize_row data = Ok rows → Forall2 normalizes data rows.
Proof.
  revert rows. induction data as [|v data IH]; cbn [for_each]; intros rows.
  - intros [= <-]. constructor.
  - destruct (normalize_row v) as [r|] eqn:Er; [|discriminate].
    destruct (for_each normalize_row data) as [rs|]; [|discriminate].
    intros [= <-]. constructor; [by apply normalize_row_Ok|by apply IH].
Qed.

Lemma for_each_loadable data :
  Forall loadable data → ∃ rows, for_each normalize_row data = Ok rows.
Proof.
  induction 1 as [|v data Hv _ [rows IH]]; cbn [for_each]; [eauto|].
  destruct (normalize_row_loadable v Hv) as [r ->]. rewrite IH. eauto.
Qed.

Lemma holdings_list w data :
  data_file w = Json (PList data) →
  holdings w = for_each normalize_row data.
Proof.
  intros Hf. unfold holdings, load_portfolio, bind, read_file, lift.
  by rewrite Hf.
Qed.
End Normalize.

(** C8, as it holds.  Without a data file, with text that [json.load]
    rejects with [JSONDecodeError], or with JSON that is not a list, the
    holdings are empty.  A list is loaded when every entry is a dict
    that holds, under "shares" and under "price", a [float], an [int]
    that [float] can convert (one of magnitude below [float_limit]), a
    boolean, a string that [float] reads, an empty value, null, or
    nothing.  Whenever a list is loaded, the rows are made of its
    entries one by one in order: the symbol is upper-cased (and not
    trimmed), shares and cost basis are what [float] makes of the values
    given, and 0 when the key is missing or holds null, false, 0 or an
    empty value.  Loading leaves the world as it was. *)
Theorem load_portfolio_normalizes `{Runtime} w :
  (data_file w = NoFile ∨ data_file w = BadJson
   ∨ (∃ v, data_file w = Json v ∧ ∀ data, v ≠ PList data) →
   holdings w = Ok [])
  ∧ (∀ data, data_file w = Json (PList data) →
       (Forall loadable data → ∃ rows, holdings w = Ok rows)
       ∧ ∀ rows, holdings w = Ok rows → Forall2 normalizes data rows)
  ∧ (load_portfolio w).2 = w.
Proof.
  split_and!.
  - unfold holdings, load_portfolio, bind, read_file, ret, lift. cbn.
    intros [->|[->|(v & -> & Hv)]]; [done..|].
    destruct v; try done. by destruct (Hv l).
  - intros data Hf. rewrite (holdings_list w data Hf). split.
    + apply for_each_loadable.
    + apply for_each_normalizes.
  - apply load_portfolio_world.
Qed.

Section Padded.
#[local] Existing Instance demo_runtime.

(** Counterexample to C8: the symbol [" aapl "] is loaded in upper case
    with its blanks. *)
Lemma load_keeps_blanks :
  holdings padded_symbol = Ok [new_row " AAPL " (of_Z 1) (of_Z 10)]
  ∧ strip " AAPL " ≠ " AAPL ".
Proof. split; [by_compute|discriminate]. Qed.

(** Shares that [float] refuses make [load_portfolio] raise: a string
    that is no number, an integer too large for a double.  So do bytes
    that are no text and brackets nested too deep. *)
Lemma load_raises_on_text_shares :
  holdings shares_not_a_number = Raise ValueError.
Proof. by_compute. Qed.

Lemma load_raises_on_huge_shares :
  holdings too_many_shares = Raise OverflowError.
Proof. by_compute. Qed.

Lemma load_raises_on_bytes :
  holdings not_text = Raise UnicodeDecodeError
  ∧ view_portfolio not_text = (Raise UnicodeDecodeError, not_text)
  ∧ holdings nested_too_deep = Raise RecursionError.
Proof. split_and!; by_compute. Qed.

(** Whole numbers in the data file are loaded as floats. *)
Lemma whole_numbers_loaded :
  holdings whole_numbers = Ok [new_row "AAPL" (of_Z 3) (of_Z 175)].
Proof. by_compute. Qed.
End Padded.

(* ================================================================= *)
(** ** The program at work *)

Section Runs.
#[local] Existing Instance demo_runtime.

(** Whichever lot of AAPL is entered first, 5 shares at 130 are held
    next to the MSFT row. *)
Lemma aapl_lots_either_order :
  holdings (add_stock (add_stock aapl_lots).2).2
  = Ok [new_row "MSFT" (of_Z 10) (of_Z 50); new_row "AAPL" (of_Z 5) (of_Z 130)]
  ∧ holdings (add_stock (add_stock aapl_lots_swapped).2).2
    = Ok [new_row "MSFT" (of_Z 10) (of_Z 50);
          new_row "AAPL" (of_Z 5) (of_Z 130)].
Proof.
  pose proof (add_stock_order_independent_when_new aapl_lots aapl_lots_swapped
                [new_row "MSFT" (of_Z 10) (of_Z 50)]
                "aapl" "2" "100" " AAPL " "3" "150" [] [] "AAPL"
                (of_Z 2) (of_Z 100) (of_Z 3) (of_Z 150)) as Hthm.
  destruct Hthm as (_ & _ & _ & _ & Hh & Hh' & _);
    [by_compute|reflexivity|reflexivity|reflexivity
    |repeat split|repeat split|reflexivity
    |by_compute|by_compute|by_compute|by_compute|reflexivity|].
  rewrite Hh, Hh'. split; by_compute.
Defined.

(** Ten MSFT shares at 50 are held: whichever of 5 at 80 and 10 at 20 is
    entered first, 25 shares at 44 are held in the end. *)
Lemma more_msft_either_order :
  holdings (add_stock (add_stock more_msft).2).2
  = Ok [new_row "MSFT" (of_Z 25) (of_Z 44)]
  ∧ holdings (add_stock (add_stock more_msft_swapped).2).2
    = Ok [new_row "MSFT" (of_Z 25) (of_Z 44)].
Proof. split; by_compute. Qed.

(** An entry of no shares is refused and the data file is untouched. *)
Lemma no_shares_refused :
  data_file (add_stock no_shares).2 = data_file no_shares
  ∧ (add_stock no_shares).1 = Ok tt.
Proof.
  pose proof (add_stock_refusal_leaves_store no_shares
                "msft" "0" "80" [] (of_Z 0) (of_Z 80)) as Hthm.
  destruct Hthm as (Hf & _ & _ & Hrep);
    [reflexivity|reflexivity|reflexivity|right; left; by_compute|].
  split; [exact Hf|].
  apply (Hrep [new_row "MSFT" (of_Z 10) (of_Z 50)]). by_compute.
Defined.

(** Two rows bear the key AAPL: one request is made. *)
Lemma twice_listed_one_request :
  requests (view_portfolio twice_listed).2 = ["AAPL"].
Proof.
  pose proof (view_portfolio_one_request_per_key twice_listed
                [new_row "AAPL" (of_Z 1) (of_Z 10);
                 new_row "AAPL" (of_Z 2) (of_Z 20)]) as Hthm.
  destruct Hthm as (Hreq & _); [by_compute|].
  rewrite Hreq. by_compute.
Defined.

(** MSFT is held once before and once after more of it is entered. *)
Lemma more_msft_one_row :
  ∃ rows',
    holdings (add_stock more_msft).2 = Ok rows'
    ∧ NoDup (key <$> rows')
    ∧ (Forall trimmed [new_row "MSFT" (of_Z 10) (of_Z 50)] →
       Forall trimmed rows' ∧ NoDup (normalized_symbol <$> rows'))
    ∧ ∀ q i r,
        find_row rows' q = Some (i, r)
        ↔ rows' !! i = Some r ∧ key r = strip (upper q).
Proof.
  apply (add_stock_keeps_one_row_per_key more_msft
           [new_row "MSFT" (of_Z 10) (of_Z 50)]
           "msft" "5" "80" [" MSFT "; "10"; "20"] "MSFT" (of_Z 5) (of_Z 80));
    [by_compute|reflexivity|repeat split|reflexivity|by_compute|by_compute|].
  apply NoDup_singleton.
Defined.

(** More MSFT is entered: the MSFT row is replaced where it stands. *)
Lemma more_msft_frame :
  ∃ rows',
    (add_stock more_msft).1 = Ok tt
    ∧ holdings (add_stock more_msft).2 = Ok rows'
    ∧ ((find_row [new_row "MSFT" (of_Z 10) (of_Z 50)] "MSFT" = None
        ∧ rows' = [new_row "MSFT" (of_Z 10) (of_Z 50)]
                  ++ [new_row "MSFT" (of_Z 5) (of_Z 80)])
       ∨ (∃ i r r',
            find_row [new_row "MSFT" (of_Z 10) (of_Z 50)] "MSFT" = Some (i, r)
            ∧ rows' = <[i := r']> [new_row "MSFT" (of_Z 10) (of_Z 50)]
            ∧ symbol r' = symbol r ∧ extra r' = extra r
            ∧ shares r' = shares r + of_Z 5))
    ∧ (∀ j x, [new_row "MSFT" (of_Z 10) (of_Z 50)] !! j = Some x →
              key x ≠ "MSFT" → rows' !! j = Some x)
    ∧ symbol <$> take 1 rows' = symbol <$> [new_row "MSFT" (of_Z 10) (of_Z 50)].
Proof.
  apply (add_stock_frame more_msft
           [new_row "MSFT" (of_Z 10) (of_Z 50)]
           "msft" "5" "80" [" MSFT "; "10"; "20"] "MSFT" (of_Z 5) (of_Z 80));
    [by_compute|reflexivity|repeat split|reflexivity|by_compute|by_compute].
Defined.

(** Ten MSFT shares bought at 50 and quoted at 60 are worth 600, a gain
    of 100, that is 20 percent. *)
Lemma msft_only_viewed :
  stdout (view_portfolio msft_only).2
  = table_head
    ++ [RowLine "MSFT" (of_Z 10) (of_Z 50) (Dollars (of_Z 60))
          (of_Z 600) (of_Z 100);
        Text rule; Totals (of_Z 600) (of_Z 100); Change (of_Z 20); Text ""].
Proof. by_compute. Qed.

(** A ticker without a quote is shown as [NA] and counts 0; the MSFT row
    and the totals are printed all the same, and the ticker is
    requested once. *)
Lemma partly_quoted_viewed :
  view_portfolio partly_quoted
  = (Ok tt,
     {| data_file := data_file partly_quoted; stdin := [];
        stdout :=
          table_head
          ++ [RowLine "ZZZZ" (of_Z 3) (of_Z 7) NA (of_Z 0) (of_Z (-21));
              RowLine "MSFT" (of_Z 10) (of_Z 50) (Dollars (of_Z 60))
                (of_Z 600) (of_Z 100);
              RowLine "ZZZZ" (of_Z 1) (of_Z 9) NA (of_Z 0) (of_Z (-9));
              Text rule; Totals (of_Z 600) (of_Z 70);
              Change (Q2Qc (700 # 53)); Text ""];
        requests := ["ZZZZ"; "MSFT"] |}).
Proof. by_compute. Qed.

(** Counterexample to C2: into a store that holds -2 shares of AAPL at
    10, the entries 2 at 100 and 3 at 150 are made in one order and in
    the other.  The guard on the new total skips the re-averaging when
    the total is not above 0, and the cost basis ends at 150 one way and
    at 210 the other. *)
Lemma short_aapl_either_order :
  holdings short_aapl = Ok [new_row "AAPL" (- of_Z 2) (of_Z 10)]
  ∧ holdings short_aapl_swapped = Ok [new_row "AAPL" (- of_Z 2) (of_Z 10)]
  ∧ holdings (add_stock (add_stock short_aapl).2).2
    = Ok [new_row "AAPL" (of_Z 3) (of_Z 150)]
  ∧ holdings (add_stock (add_stock short_aapl_swapped).2).2
    = Ok [new_row "AAPL" (of_Z 3) (of_Z 210)]
  ∧ of_Z 150 ≠ of_Z 210.
Proof. split_and!; by_compute. Qed.

(** Counterexample to C5: stored symbols are not trimmed, so a symbol
    with a blank before it is a key of its own.  The two rows have one
    normalised symbol, AAPL, and [get_live_price] is called twice in one
    run, each time for the ticker AAPL. *)
Lemma blank_before_requests :
  holdings blank_before
  = Ok [new_row " AAPL" (of_Z 1) (of_Z 10); new_row "AAPL" (of_Z 2) (of_Z 20)]
  ∧ normalized_symbol (new_row " AAPL" (of_Z 1) (of_Z 10)) = "AAPL"
  ∧ normalized_symbol (new_row "AAPL" (of_Z 2) (of_Z 20)) = "AAPL"
  ∧ requests (view_portfolio blank_before).2 = [" AAPL"; "AAPL"]
  ∧ strip (upper " AAPL") = strip (upper "AAPL").
Proof. split_and!; by_compute. Qed.

(** Without a data file there is nothing to show. *)
Lemma nothing_to_view :
  stdout (view_portfolio two_lots).2 = [Text ""; Text "Portfolio is empty."].
Proof. by_compute. Qed.
End Runs.

(* ================================================================= *)
(** ** Every way [add_stock] can go *)

Ltac answer_prompt :=
  unfold bind at 1; unfold input at 1, bind at 1, print at 1; cbn [stdin].

Section Outcomes.
Context `{Runtime}.

Lemma add_stock_invalid_cost w rows t a b rest sh :
  holdings w = Ok rows → stdin w = t :: a :: b :: rest →
  nonempty (upper (strip t)) = true →
  float_of_str (strip a) = Some sh → 0 < sh →
  float_of_str (strip b) = None →
  add_stock w
  = (Ok tt,
     {| data_file := data_file w; stdin := rest;
        stdout := stdout w ++ [Prompt "Enter symbol (e.g., AAPL): ";
                               Prompt "Enter shares (e.g., 3 or 3.5): ";
                               Prompt "Enter your average cost per share: ";
                               Text "Invalid cost."];
        requests := requests w |}).
Proof.
  intros Hh Hin Hsym Ha Hsh Hb. unfold add_stock. unfold bind at 1.
  rewrite load_portfolio_run, Hh.
  destruct w as [f i o q]; simpl in Hin; subst i.
  answer_prompt. rewrite Hsym. cbn [negb].
  answer_prompt. rewrite Ha, bool_decide_eq_false_2 by by apply Qclt_nge.
  answer_prompt. rewrite Hb.
  unfold print. cbn. by rewrite <- !(assoc_L (++)).
Qed.

Lemma add_stock_eof_symbol w rows :
  holdings w = Ok rows → stdin w = [] →
  add_stock w
  = (Raise EOFError,
     {| data_file := data_file w; stdin := [];
        stdout := stdout w ++ [Prompt "Enter symbol (e.g., AAPL): "];
        requests := requests w |}).
Proof.
  intros Hh Hin. unfold add_stock. unfold bind at 1.
  rewrite load_portfolio_run, Hh.
  destruct w as [f i o q]; simpl in Hin; subst i.
  by answer_prompt.
Qed.

Lemma add_stock_eof_shares w rows t :
  holdings w = Ok rows → stdin w = [t] →
  nonempty (upper (strip t)) = true →
  add_stock w
  = (Raise EOFError,
     {| data_file := data_file w; stdin := [];
        stdout := stdout w ++ [Prompt "Enter symbol (e.g., AAPL): ";
                               Prompt "Enter shares (e.g., 3 or 3.5): "];
        requests := requests w |}).
Proof.
  intros Hh Hin Hsym. unfold add_stock. unfold bind at 1.
  rewrite load_portfolio_run, Hh.
  destruct w as [f i o q]; simpl in Hin; subst i.
  answer_prompt. rewrite Hsym. cbn [negb].
  answer_prompt. cbn. by rewrite <- !(assoc_L (++)).
Qed.

Lemma add_stock_eof_cost w rows t a sh :
  holdings w = Ok rows → stdin w = [t; a] →
  nonempty (upper (strip t)) = true →
  float_of_str (strip a) = Some sh → 0 < sh →
  add_stock w
  = (Raise EOFError,
     {| data_file := data_file w; stdin := [];
        stdout := stdout w ++ [Prompt "Enter symbol (e.g., AAPL): ";
                               Prompt "Enter shares (e.g., 3 or 3.5): ";
                               Prompt "Enter your average cost per share: "];
        requests := requests w |}).
Proof.
  intros Hh Hin Hsym Ha Hsh. unfold add_stock. unfold bind at 1.
  rewrite load_portfolio_run, Hh.
  destruct w as [f i o q]; simpl in Hin; subst i.
  answer_prompt. rewrite Hsym. cbn [negb].
  answer_prompt. rewrite Ha, bool_decide_eq_false_2 by by apply Qclt_nge.
  answer_prompt. cbn. by rewrite <- !(assoc_L (++)).
Qed.

(** Either the entry is valid, or [add_stock] stops before it writes:
    it then ends normally after a message, or raises [EOFError], or
    raises what loading raised; in each case it reads a line or more,
    unless there is none or loading failed. *)
Lemma add_stock_outcome w :
  (data_file (add_stock w).2 = data_file w
   ∧ requests (add_stock w).2 = requests w
   ∧ stdin (add_stock w).2 `suffix_of` stdin w
   ∧ ((add_stock w).1 = Ok tt
      ∨ (add_stock w).1 = Raise EOFError ∧ stdin (add_stock w).2 = []
      ∨ ∃ e, holdings w = Raise e ∧ (add_stock w).1 = Raise e))
  ∨ ∃ rows t a b rest sym sh cost,
      holdings w = Ok rows ∧ stdin w = t :: a :: b :: rest
      ∧ typed t a b sym sh cost ∧ nonempty sym = true ∧ 0 < sh ∧ 0 ≤ cost.
Proof.
  destruct (holdings w) as [rows|e] eqn:Hh.
  2:{ left. rewrite (add_stock_load_raises w e) by done. cbn.
      split_and!; eauto; repeat apply suffix_cons_r; done. }
  destruct (stdin w) as [|t i] eqn:Hin.
  { left. rewrite (add_stock_eof_symbol w rows) by done. cbn. split_and!; eauto. }
  destruct (nonempty (upper (strip t))) eqn:Hsym.
  2:{ left. rewrite (add_stock_no_symbol w rows t i) by done. cbn.
      split_and!; eauto; repeat apply suffix_cons_r; done. }
  destruct i as [|a i].
  { left. rewrite (add_stock_eof_shares w rows t) by done. cbn.
      split_and!; eauto; repeat apply suffix_cons_r; done. }
  destruct (float_of_str (strip a)) as [sh|] eqn:Ha.
  2:{ left. rewrite (add_stock_invalid_shares w rows t a i) by done. cbn.
      split_and!; eauto; repeat apply suffix_cons_r; done. }
  destruct (decide (sh ≤ 0)) as [Hsh|Hsh].
  { left. rewrite (add_stock_no_shares w rows t a i sh) by done. cbn.
    split_and!; eauto; repeat apply suffix_cons_r; done. }
  apply Qclt_nge in Hsh.
  destruct i as [|b i].
  { left. rewrite (add_stock_eof_cost w rows t a sh) by done. cbn.
    split_and!; eauto; repeat apply suffix_cons_r; done. }
  destruct (float_of_str (strip b)) as [cost|] eqn:Hb.
  2:{ left. rewrite (add_stock_invalid_cost w rows t a b i sh) by done. cbn.
      split_and!; eauto; repeat apply suffix_cons_r; done. }
  destruct (decide (cost < 0)) as [Hcost|Hcost].
  { left. rewrite (add_stock_negative_cost w rows t a b i sh cost) by done.
    cbn. split_and!; eauto; repeat apply suffix_cons_r; done. }
  apply Qcle_ngt in Hcost.
  right. exists rows, t, a, b, i, (upper (strip t)), sh, cost.
  split_and!; try done.
Qed.
End Outcomes.

(** X1. [add_stock] writes the data file only when it has read three
    lines, the symbol is not empty, [float] has read both numbers and
    neither guard has fired, that is, neither [shares <= 0] nor
    [cost < 0] holds: the run then ends normally and the file holds the
    rows of lines 114 to 127.  In every other run the file is left as it
    was; so a run that raises leaves the data file as it was. *)
Theorem add_stock_writes_only_past_guards `{Runtime} w :
  (data_file (add_stock w).2 = data_file w
   ∨ ∃ rows t a b rest sym sh cost,
       holdings w = Ok rows ∧ stdin w = t :: a :: b :: rest
       ∧ typed t a b sym sh cost ∧ nonempty sym = true
       ∧ ¬ sh ≤ 0 ∧ ¬ cost < 0
       ∧ (add_stock w).1 = Ok tt
       ∧ data_file (add_stock w).2
         = Json (PList (map row_dict (upserted rows sym sh cost))))
  ∧ ((add_stock w).1 ≠ Ok tt → data_file (add_stock w).2 = data_file w).
Proof.
  destruct (add_stock_outcome w)
    as [(Hf & _)|(rows & t & a & b & rest & sym & sh & cost & Hh & Hin & Hty
                  & Hne & Hsh & Hcost)].
  - split; [by left|done].
  - destruct (add_stock_valid_holdings w rows t a b rest sym sh cost)
      as (Hr & _ & Hf & _); [done..|].
    split; [|done]. right. exists rows, t, a, b, rest, sym, sh, cost.
    split_and!; try done.
    + by apply Qclt_not_le.
    + by apply Qcle_not_lt.
Qed.

(** X2. [add_stock] ends normally, or raises [EOFError] with the input
    used up, or raises what [load_portfolio] raised, before anything is
    printed or read; it never raises [ZeroDivisionError], whatever shares
    the rows hold. *)
Theorem add_stock_raises_only `{Runtime} w :
  ((add_stock w).1 = Ok tt
   ∨ (add_stock w).1 = Raise EOFError ∧ stdin (add_stock w).2 = []
   ∨ ∃ e, holdings w = Raise e ∧ add_stock w = (Raise e, w))
  ∧ (add_stock w).1 ≠ Raise ZeroDivisionError.
Proof.
  assert (Hcases : (add_stock w).1 = Ok tt
    ∨ (add_stock w).1 = Raise EOFError ∧ stdin (add_stock w).2 = []
    ∨ ∃ e, holdings w = Raise e ∧ add_stock w = (Raise e, w)).
  { destruct (add_stock_outcome w)
      as [(_ & _ & _ & [Hr|[Hr|(e & Hh & Hr)]])
         |(rows & t & a & b & rest & sym & sh & cost & Hh & Hin & Hty
                  & Hne & Hsh & Hcost)]; [by left|by right; left| |].
    - right; right. exists e. split; [done|]. by apply add_stock_load_raises.
    - left. by destruct (add_stock_valid_holdings w rows t a b rest sym sh cost)
        as (Hr & _); [done..|]. }
  split; [done|].
  destruct Hcases as [->|[[-> _]|(e & Hh & ->)]]; [done..|].
  intros [= ->]. by apply holdings_no_division in Hh.
Qed.

(** X3. A line that [float] refuses, for the shares or for the cost, is
    reported as invalid: [add_stock] ends normally and the data file is
    left as it was. *)
Theorem add_stock_reports_unreadable_number `{Runtime}
    w rows t a b rest :
  holdings w = Ok rows →
  stdin w = t :: a :: b :: rest →
  nonempty (upper (strip t)) = true →
  float_of_str (strip a) = None
  ∨ (∃ sh, float_of_str (strip a) = Some sh ∧ 0 < sh)
    ∧ float_of_str (strip b) = None →
  (add_stock w).1 = Ok tt
  ∧ data_file (add_stock w).2 = data_file w
  ∧ ∃ msg, last (stdout (add_stock w).2) = Some (Text msg)
           ∧ (float_of_str (strip a) = None → msg = "Invalid shares.")
           ∧ (float_of_str (strip a) ≠ None → msg = "Invalid cost.").
Proof.
  intros Hh Hin Hsym [Ha|[(sh & Ha & Hsh) Hb]].
  - rewrite (add_stock_invalid_shares w rows t a (b :: rest)) by done.
    cbn [fst snd data_file stdout]. split_and!; [done..|].
    eexists. rewrite last_app. cbn. split_and!; [done|done|]. by rewrite Ha.
  - rewrite (add_stock_invalid_cost w rows t a b rest sh) by done.
    cbn [fst snd data_file stdout]. split_and!; [done..|].
    eexists. rewrite last_app. cbn. split_and!; [done| |done].
    by rewrite Ha.
Qed.

(* ================================================================= *)
(** ** The guard on the new total *)

(** X7. The guard on the new total: when the row held has so many shares
    below 0 that the total with the shares entered is not above 0, the
    shares become that total and the cost basis stays as it was, the
    cost entered being dropped. *)
Theorem add_stock_keeps_cost_below_zero `{Runtime}
    w rows t a b rest sym sh cost i r :
  holdings w = Ok rows →
  stdin w = t :: a :: b :: rest →
  typed t a b sym sh cost →
  nonempty sym = true → 0 < sh → 0 ≤ cost →
  find_row rows sym = Some (i, r) → shares r + sh ≤ 0 →
  (add_stock w).1 = Ok tt
  ∧ holdings (add_stock w).2
    = Ok (<[i := {| symbol := symbol r; shares := shares r + sh;
                    price := price r; extra := extra r |}]> rows).
Proof.
  intros Hh Hin Hty Hne Hsh Hcost Hf Hle.
  destruct (add_stock_valid_holdings w rows t a b rest sym sh cost)
    as (Hr & _ & _ & Hh'); [done..|].
  split; [done|]. rewrite Hh'. unfold upserted. rewrite Hf.
  by rewrite decide_False by by apply Qcle_ngt.
Qed.

(* ================================================================= *)
(** ** More on [find_row] *)

(** X9. [find_row] takes its query in any case and with any blanks
    around it: two queries with the same trimmed upper-case form find
    the same row. *)
Theorem find_row_ignores_case_and_blanks rows t t' :
  upper (strip t) = upper (strip t') → find_row rows t = find_row rows t'.
Proof. intros Heq. unfold find_row. by rewrite !strip_upper, Heq. Qed.

(** X10. The row that [find_row] returns has the trimmed upper-case query
    as its key, and no row before it has; so a row whose upper-case
    symbol has blanks around it is never returned, whatever the query. *)
Theorem find_row_never_returns_padded rows t i r :
  find_row rows t = Some (i, r) →
  rows !! i = Some r
  ∧ key r = upper (strip t)
  ∧ strip (key r) = key r
  ∧ ∀ j x, rows !! j = Some x → (j < i)%nat → key x ≠ key r.
Proof.
  intros (Hi & Hr & Hleast)%find_row_Some. rewrite strip_upper in Hr.
  split_and!; [done|done| |].
  - by rewrite Hr, <- strip_upper, strip_idem.
  - intros j x Hj Hlt. rewrite Hr, <- strip_upper. by apply (Hleast j x).
Qed.

(** X11. No entry of [add_stock] changes a row whose upper-case symbol
    has blanks around it: such a row is read again at its place as it
    was, whatever symbol is entered. *)
Theorem add_stock_never_changes_padded_rows `{Runtime}
    w rows t a b rest sym sh cost j x :
  holdings w = Ok rows →
  stdin w = t :: a :: b :: rest →
  typed t a b sym sh cost →
  nonempty sym = true → 0 < sh → 0 ≤ cost →
  rows !! j = Some x → strip (key x) ≠ key x →
  ∃ rows', holdings (add_stock w).2 = Ok rows' ∧ rows' !! j = Some x.
Proof.
  intros Hh Hin Hty Hne Hsh Hcost Hj Hx.
  destruct (add_stock_valid_holdings w rows t a b rest sym sh cost)
    as (_ & _ & _ & Hh'); [done..|].
  exists (upserted rows sym sh cost). split; [done|].
  assert (Hsym : strip (upper sym) = upper sym).
  { destruct Hty as (<- & _). apply typed_symbol_key. }
  apply (upserted_other_rows rows sym sh cost j x); [done|done|].
  intros Heq. apply Hx. by rewrite Heq, Hsym.
Qed.

(* ================================================================= *)
(** ** More on [load_portfolio] and [save_portfolio] *)

Section LoadSave.
Context `{Runtime}.

Lemma nonempty_false s : nonempty s = false → s = EmptyString.
Proof. by destruct s. Qed.

Lemma coerces_numeric v x : coerces v x → numeric v.
Proof.
  destruct v as [[|b|z|y|s|l|d]|]; cbn [coerces numeric]; try done.
  - by intros [Hz _].
  - destruct (nonempty s) eqn:Hs.
    + intros Hx. right. by rewrite Hx.
    + intros _. left. by apply nonempty_false.
  - by intros [-> _].
  - by intros [-> _].
Qed.

Lemma normalizes_loadable v r : normalizes v r → loadable v.
Proof.
  intros (d & -> & _ & Hsh & Hpr & _). exists d.
  split_and!; [done|by eapply coerces_numeric..].
Qed.

Lemma normalize_row_Ok_iff v :
  (∃ r, normalize_row v = Ok r) ↔ loadable v.
Proof.
  split; [|apply normalize_row_loadable].
  intros [r Hr]. by eapply normalizes_loadable, normalize_row_Ok.
Qed.

(** Loading stops at the first entry that is not loadable, with the
    exception that entry raises. *)
Lemma for_each_raises data e :
  for_each normalize_row data = Raise e →
  ∃ i v, data !! i = Some v ∧ Forall loadable (take i data)
         ∧ normalize_row v = Raise e.
Proof.
  induction data as [|v data IH]; cbn [for_each]; [done|].
  destruct (normalize_row v) as [r|e'] eqn:Ev.
  - destruct (for_each normalize_row data) as [rs|e'] eqn:Erest; [done|].
    intros [= ->]. destruct (IH eq_refl) as (i & v' & Hi & Hbefore & Hv').
    exists (S i), v'. split_and!; [done| |done].
    cbn [take]. constructor; [|done]. apply normalize_row_Ok_iff. eauto.
  - intros [= ->]. exists 0%nat, v. split_and!; [done|constructor|done].
Qed.
End LoadSave.

(** X12. Saving the rows that were loaded and loading again gives the
    same rows, whatever the data file held in between: loading is
    idempotent through the data file. *)
Theorem load_save_round_trip `{Runtime} w w' rows :
  holdings w = Ok rows → holdings (save_portfolio rows w').2 = Ok rows.
Proof. intros Hh. by eapply holdings_saved, holdings_normal. Qed.

(** X13. A data file that holds a JSON list is loaded if and only if
    every entry is a dict whose values under "shares" and "price" are
    floats, integers that [float] can convert (of magnitude below
    [float_limit]), strings that [float] reads, booleans, null, empty
    or missing; otherwise loading raises the exception of the first
    entry that is not so, which is [AttributeError] exactly when that
    entry is not a dict. *)
Theorem load_portfolio_loads_iff `{Runtime} w data :
  data_file w = Json (PList data) →
  ((∃ rows, holdings w = Ok rows) ↔ Forall loadable data)
  ∧ ∀ e, holdings w = Raise e →
      ∃ i v, data !! i = Some v ∧ Forall loadable (take i data)
             ∧ ¬ loadable v
             ∧ (e = AttributeError ↔ ∀ d, v ≠ PDict d).
Proof.
  intros Hf. rewrite (holdings_list w data Hf). split.
  - split; [|apply for_each_loadable].
    intros [rows Hrows]. apply for_each_normalizes in Hrows.
    clear Hf. induction Hrows as [|v r vs rs Hv _ IH]; constructor; [|done].
    by eapply normalizes_loadable.
  - intros e (i & v & Hi & Hbefore & Hv)%for_each_raises.
    exists i, v. split_and!; [done|done| |].
    + intros (r & Hr)%normalize_row_Ok_iff. congruence.
    + destruct v as [| | | | | |d]; cbn in Hv;
        try (injection Hv as <-; split; [intros _ d; discriminate|done]).
      split; [|intros Hd; by destruct (Hd d)].
      intros ->. exfalso.
      destruct (py_float (py_or (default (PInt 0) (py_get "shares" d)) _))
        as [sh|e1] eqn:E1.
      * destruct (py_float (py_or (default (PInt 0) (py_get "price" d)) _))
          as [pr|e2] eqn:E2; [done|]. injection Hv as ->.
        by apply py_float_raises in E2 as [E2|[E2|E2]].
      * injection Hv as ->. by apply py_float_raises in E1 as [E1|[E1|E1]].
Qed.

(* ================================================================= *)
(** ** More on [view_portfolio] *)

Section Viewing.
Context `{Runtime}.

Lemma view_portfolio_world w rows :
  holdings w = Ok rows →
  (view_portfolio w).1 = Ok tt
  ∧ data_file (view_portfolio w).2 = data_file w
  ∧ stdin (view_portfolio w).2 = stdin w
  ∧ requests (view_portfolio w).2 = requests w ++ first_seen (key <$> rows).
Proof.
  intros Hh. destruct rows as [|r rows].
  - rewrite view_portfolio_empty by done. cbn. by rewrite app_nil_r.
  - rewrite (view_portfolio_rows w (r :: rows)) by done.
    destruct (valuation_run (r :: rows) w) as (c & -> & _). done.
Qed.

End Viewing.

(** X14. [view_portfolio] only reads: the data file and the input are
    left as they were.  It ends normally exactly when the data file
    loads; when loading raises, it raises the same and nothing is
    printed or requested. *)
Theorem view_portfolio_only_reads `{Runtime} w :
  data_file (view_portfolio w).2 = data_file w
  ∧ stdin (view_portfolio w).2 = stdin w
  ∧ ((view_portfolio w).1 = Ok tt ↔ ∃ rows, holdings w = Ok rows)
  ∧ ∀ e, holdings w = Raise e → view_portfolio w = (Raise e, w).
Proof.
  destruct (holdings w) as [rows|e] eqn:Hh.
  - destruct (view_portfolio_world w rows Hh) as (Hr & Hf & Hin & _).
    split_and!; [done|done| |done]. split; eauto.
  - rewrite (view_portfolio_load_raises w e Hh). cbn.
    split_and!; [done|done| |].
    + split; [done|]. by intros [rows Hrows].
    + by intros e' [= <-].
Qed.

(** X15. With no data file, with one that is not JSON, with JSON that is
    not a list, or with an empty list, [view_portfolio] prints a blank
    line and the notice that the portfolio is empty, and asks for no
    price. *)
Theorem view_portfolio_nothing_held `{Runtime} w :
  data_file w = NoFile ∨ data_file w = BadJson
  ∨ data_file w = Json (PList [])
  ∨ (∃ v, data_file w = Json v ∧ ∀ data, v ≠ PList data) →
  view_portfolio w
  = (Ok tt,
     {| data_file := data_file w; stdin := stdin w;
        stdout := stdout w ++ [Text ""; Text "Portfolio is empty."];
        requests := requests w |}).
Proof.
  intros Hf. apply view_portfolio_empty.
  unfold holdings, load_portfolio, bind, read_file, ret, lift. cbn.
  destruct Hf as [->|[->|[->|(v & -> & Hv)]]]; [done..|].
  destruct v; try done. by destruct (Hv l).
Qed.

(** X16. The price cache lives for one run: a second run of
    [view_portfolio] asks again for every key the first run asked
    for. *)
Theorem view_portfolio_twice_asks_twice `{Runtime} w rows :
  holdings w = Ok rows →
  requests (view_portfolio (view_portfolio w).2).2
  = requests w ++ first_seen (key <$> rows) ++ first_seen (key <$> rows).
Proof.
  intros Hh.
  destruct (view_portfolio_world w rows Hh) as (_ & Hf & _ & Hreq).
  assert (Hh' : holdings (view_portfolio w).2 = Ok rows)
    by by rewrite (holdings_data_file w).
  destruct (view_portfolio_world _ rows Hh') as (_ & _ & _ & Hreq').
  by rewrite Hreq', Hreq, <- (assoc_L (++)).
Qed.


(* ================================================================= *)
(** ** The menu loop *)

Section Menu.
Context `{Runtime}.

Lemma main_turn_eof w :
  stdin w = [] → main_turn w = (Raise EOFError, chosen w []).
Proof.
  intros Hin. unfold main_turn.
  do 4 (unfold bind at 1; unfold print at 1).
  unfold bind at 1. unfold input at 1, bind at 1, print at 1. cbn [stdin].
  rewrite Hin. unfold chosen. cbn [data_file stdin stdout requests].
  by rewrite <- !(assoc_L (++)).
Qed.

Lemma main_turn_run w c rest :
  stdin w = c :: rest →
  main_turn w
  = (if bool_decide (strip c = "1") then add_stock ;;; ret true
     else if bool_decide (strip c = "2") then view_portfolio ;;; ret true
     else if bool_decide (strip c = "3")
          then print (Text goodbye) ;;; ret false
     else print (Text invalid_choice) ;;; print (Text "") ;;; ret true)
      (chosen w rest).
Proof.
  intros Hin. unfold main_turn.
  do 4 (unfold bind at 1; unfold print at 1).
  unfold bind at 1. unfold input at 1, bind at 1, print at 1. cbn [stdin].
  rewrite Hin. unfold chosen. cbn [data_file stdin stdout requests].
  by rewrite <- !(assoc_L (++)).
Qed.

Lemma add_stock_frame_world w :
  requests (add_stock w).2 = requests w
  ∧ stdin (add_stock w).2 `suffix_of` stdin w.
Proof.
  destruct (add_stock_outcome w)
    as [(_ & Hq & Hin & _)
       |(rows & t & a & b & rest & sym & sh & cost & Hh & Hin & Hty
                & Hne & Hsh & Hcost)]; [done|].
  destruct (add_stock_valid_holdings w rows t a b rest sym sh cost)
    as (_ & Hin' & _); [done..|].
  split.
  - rewrite (add_stock_valid w rows t a b rest sym sh cost) by done.
    unfold bind.
    pose proof (upsert_world rows sym sh cost (answered w rest))
      as (_ & _ & Hq).
    by destruct (upsert rows sym sh cost (answered w rest)) as [[rows'|e] w1].
  - rewrite Hin', Hin. by do 3 apply suffix_cons_r.
Qed.

Lemma view_portfolio_frame w :
  data_file (view_portfolio w).2 = data_file w
  ∧ stdin (view_portfolio w).2 = stdin w
  ∧ ((view_portfolio w).1 = Ok tt
     ∨ ∃ e, holdings w = Raise e ∧ view_portfolio w = (Raise e, w)).
Proof.
  destruct (holdings w) as [rows|e] eqn:Hh.
  - destruct (view_portfolio_world w rows Hh) as (Hr & Hf & Hin & _).
    split_and!; [done|done|by left].
  - rewrite (view_portfolio_load_raises w e Hh). cbn.
    split_and!; [done|done|]. right. by exists e.
Qed.

Lemma add_stock_results w :
  (add_stock w).1 = Ok tt
  ∨ (add_stock w).1 = Raise EOFError ∧ stdin (add_stock w).2 = []
  ∨ ∃ e, holdings w = Raise e ∧ add_stock w = (Raise e, w).
Proof.
  destruct (add_stock_outcome w)
    as [(_ & _ & _ & [Hr|[Hr|(e & Hh & Hr)]])
       |(rows & t & a & b & rest & sym & sh & cost & Hh & Hin & Hty
                & Hne & Hsh & Hcost)]; [by left|by right; left| |].
  - right; right. exists e. split; [done|]. by apply add_stock_load_raises.
  - left. by destruct (add_stock_valid_holdings w rows t a b rest sym sh cost)
      as (Hr & _); [done..|].
Qed.

(** What one turn of the loop does to the world. *)
Lemma main_turn_facts w :
  stdin (main_turn w).2 `suffix_of` stdin w
  ∧ ((main_turn w).1 = Ok true →
     (length (stdin (main_turn w).2) < length (stdin w))%nat)
  ∧ ((main_turn w).1 = Ok false →
     last (stdout (main_turn w).2) = Some (Text goodbye))
  ∧ (Forall (λ l, strip l ≠ "1") (stdin w) →
     data_file (main_turn w).2 = data_file w)
  ∧ (Forall (λ l, strip l ≠ "2") (stdin w) →
     requests (main_turn w).2 = requests w)
  ∧ (∀ e, (main_turn w).1 = Raise e →
     e = EOFError ∧ stdin (main_turn w).2 = []
     ∨ holdings (main_turn w).2 = Raise e).
Proof.
  destruct (stdin w) as [|c rest] eqn:Hin.
  { rewrite (main_turn_eof w Hin). cbn.
    split_and!; try done. intros e [= <-]. by left. }
  rewrite (main_turn_run w c rest Hin).
  case_bool_decide as H1; [|case_bool_decide as H2; [|case_bool_decide as H3]].
  - unfold bind, ret.
    destruct (add_stock_frame_world (chosen w rest)) as (Hq & Hsuf).
    pose proof (add_stock_results (chosen w rest)) as Hres.
    destruct (add_stock (chosen w rest)) as [[[]|e] w2]; cbn in *.
    + split_and!; try done.
      * by apply suffix_cons_r.
      * intros _. apply suffix_length in Hsuf. lia.
      * by intros [Hc _]%Forall_cons.
    + split_and!; try done.
      * by apply suffix_cons_r.
      * by intros [Hc _]%Forall_cons.
      * intros e' [= <-].
        destruct Hres as [?|[[[= ->] ?]|(e' & Hh & [= -> ->])]]; [done| |].
        -- by left.
        -- by right.
  - unfold bind, ret.
    destruct (view_portfolio_frame (chosen w rest)) as (Hf & Hsin & Hres).
    destruct (view_portfolio (chosen w rest)) as [[[]|e] w2]; cbn in *.
    + split_and!; try done.
      * rewrite Hsin. by apply suffix_cons_r.
      * intros _. rewrite Hsin. lia.
      * by intros [Hc _]%Forall_cons.
    + split_and!; try done.
      * rewrite Hsin. by apply suffix_cons_r.
      * by intros [Hc _]%Forall_cons.
      * intros e' [= <-]. destruct Hres as [?|(e' & Hh & [= -> ->])]; [done|].
        by right.
  - unfold bind, ret, print. cbn.
    split_and!; try done.
    + by apply suffix_cons_r.
    + intros _. by rewrite last_snoc.
  - unfold bind, ret, print. cbn.
    split_and!; try done.
    + by apply suffix_cons_r.
    + intros _. lia.
Qed.

Lemma Forall_suffix {A} (P : A → Prop) (l k : list A) :
  l `suffix_of` k → Forall P k → Forall P l.
Proof. intros [pre ->] Hk. by apply Forall_app in Hk as [_ Hl]. Qed.

(** The loop, by induction on the turns allowed. *)
Lemma main_facts fuel : ∀ w,
  ((length (stdin w) < fuel)%nat → (main fuel w).1 ≠ Ok None)
  ∧ ((main fuel w).1 = Ok (Some tt) →
     last (stdout (main fuel w).2) = Some (Text goodbye))
  ∧ (Forall (λ l, strip l ≠ "1") (stdin w) →
     data_file (main fuel w).2 = data_file w)
  ∧ (Forall (λ l, strip l ≠ "2") (stdin w) →
     requests (main fuel w).2 = requests w)
  ∧ (∀ e, (main fuel w).1 = Raise e →
     e = EOFError ∧ stdin (main fuel w).2 = []
     ∨ holdings (main fuel w).2 = Raise e).
Proof.
  induction fuel as [|fuel IH]; intros w.
  { cbn. split_and!; try done. intros Hlt. lia. }
  cbn [main]. unfold bind.
  destruct (main_turn_facts w) as (Hsuf & Hlt & Hbye & Hfile & Hreq & Hexn).
  destruct (main_turn w) as [[[]|e] w1]; cbn [fst snd] in *.
  - destruct (IH w1) as (Hend & Hbye1 & Hfile1 & Hreq1 & Hexn1).
    split_and!; [| done | | |done].
    + intros Hfuel. apply Hend. specialize (Hlt eq_refl). lia.
    + intros Hall. rewrite Hfile1 by by eapply Forall_suffix. by apply Hfile.
    + intros Hall. rewrite Hreq1 by by eapply Forall_suffix. by apply Hreq.
  - cbn. split_and!; [done|intros _; by apply Hbye|done|done|done].
  - cbn. split_and!; [done|done|done|done|].
    intros e' [= <-]. by apply Hexn.
Qed.

Lemma main_fuel fuel : ∀ fuel' w,
  (length (stdin w) < fuel)%nat → (length (stdin w) < fuel')%nat →
  main fuel w = main fuel' w.
Proof.
  induction fuel as [|fuel IH]; intros fuel' w Hfuel Hfuel'; [lia|].
  destruct fuel' as [|fuel']; [lia|].
  cbn [main]. unfold bind.
  destruct (main_turn_facts w) as (_ & Hlt & _).
  destruct (main_turn w) as [[[]|e] w1]; cbn [fst snd] in *; [|done..].
  specialize (Hlt eq_refl). apply IH; lia.
Qed.
End Menu.

(** X19. [main] comes to an end on every input: run for more turns than
    there are lines to read, the loop is left, at [break] or by an
    exception, before the turns are used up, and with the same outcome
    however many more turns are allowed. *)
Theorem main_comes_to_an_end `{Runtime} fuel fuel' w :
  (length (stdin w) < fuel)%nat → (length (stdin w) < fuel')%nat →
  (main fuel w).1 ≠ Ok None ∧ main fuel' w = main fuel w.
Proof.
  intros Hfuel Hfuel'. split.
  - by apply main_facts.
  - by apply main_fuel.
Qed.

(** X20. [main] ends normally only by the choice 3, the farewell being
    the last line printed.  When it raises, it is [EOFError] with the
    input used up, or the exception with which the data file, as the
    session leaves it, fails to load; it is never
    [ZeroDivisionError]. *)
Theorem main_ends_by_farewell_or_raises `{Runtime} fuel w :
  ((main fuel w).1 = Ok (Some tt) →
   last (stdout (main fuel w).2) = Some (Text goodbye))
  ∧ (∀ e, (main fuel w).1 = Raise e →
       e = EOFError ∧ stdin (main fuel w).2 = []
       ∨ holdings (main fuel w).2 = Raise e)
  ∧ (main fuel w).1 ≠ Raise ZeroDivisionError.
Proof.
  destruct (main_facts fuel w) as (_ & Hbye & _ & _ & Hexn).
  split_and!; [done|done|].
  intros [[[=] _]|Hh]%Hexn. by apply holdings_no_division in Hh.
Qed.

(** X21. A session in which no line typed is the choice 1 leaves the
    data file as it was. *)
Theorem main_without_add_keeps_file `{Runtime} fuel w :
  Forall (λ l, strip l ≠ "1") (stdin w) →
  data_file (main fuel w).2 = data_file w.
Proof. by destruct (main_facts fuel w) as (_ & _ & Hfile & _). Qed.

(** X22. A session in which no line typed is the choice 2 asks for no
    price. *)
Theorem main_without_view_asks_nothing `{Runtime} fuel w :
  Forall (λ l, strip l ≠ "2") (stdin w) →
  requests (main fuel w).2 = requests w.
Proof. by destruct (main_facts fuel w) as (_ & _ & _ & Hreq & _). Qed.

(** X23. A session at the menu: the choice 1, a valid entry, the choice
    3.  [main] ends normally with the input read up to there, and the
    holdings read afterwards are the re-averaged rows, as after
    [add_stock] alone. *)
Theorem main_add_then_exit `{Runtime}
    fuel w rows c1 t a b c3 rest sym sh cost :
  holdings w = Ok rows →
  stdin w = c1 :: t :: a :: b :: c3 :: rest →
  strip c1 = "1" → strip c3 = "3" →
  typed t a b sym sh cost →
  nonempty sym = true → 0 < sh → 0 ≤ cost →
  (main (S (S fuel)) w).1 = Ok (Some tt)
  ∧ stdin (main (S (S fuel)) w).2 = rest
  ∧ holdings (main (S (S fuel)) w).2 = Ok (upserted rows sym sh cost)
  ∧ last (stdout (main (S (S fuel)) w).2) = Some (Text goodbye).
Proof.
  intros Hh Hin Hc1 Hc3 Hty Hne Hsh Hcost.
  set (w1 := chosen w (t :: a :: b :: c3 :: rest)).
  assert (Hh1 : holdings w1 = Ok rows) by by rewrite (holdings_data_file w).
  destruct (add_stock_valid_holdings w1 rows t a b (c3 :: rest) sym sh cost)
    as (Hr & Hin2 & _ & Hh2); [done..|].
  assert (Hmain : main (S (S fuel)) w
    = (Ok (Some tt),
       (print (Text goodbye) (chosen (add_stock w1).2 rest)).2)).
  { cbn [main]. unfold bind at 1.
    rewrite (main_turn_run w c1 _ Hin), Hc1.
    rewrite bool_decide_eq_true_2 by done. fold w1. unfold bind at 1.
    destruct (add_stock w1) as [[[]|e] w2]; cbn [fst snd] in *; [|done].
    unfold ret at 1. unfold bind at 1.
    rewrite (main_turn_run w2 c3 rest Hin2), Hc3.
    rewrite bool_decide_eq_false_2 by done.
    rewrite bool_decide_eq_false_2 by done.
    rewrite bool_decide_eq_true_2 by done.
    unfold bind, print, ret. by cbn. }
  rewrite Hmain. cbn [fst snd print stdin stdout chosen].
  split_and!; [done|done| |by rewrite last_snoc].
  rewrite <- Hh2. by apply holdings_data_file.
Qed.

(* ================================================================= *)
(** ** More of the program at work *)

Section MoreRuns.
#[local] Existing Instance demo_runtime.

(** The whole of [session]: MSFT is re-averaged to 15 shares at 60, its
    price is asked for once, and the line after the choice 3 is left
    unread. *)
Lemma session_run :
  (main 9 session).1 = Ok (Some tt)
  ∧ stdin (main 9 session).2 = ["1"]
  ∧ holdings (main 9 session).2 = Ok [new_row "MSFT" (of_Z 15) (of_Z 60)]
  ∧ requests (main 9 session).2 = ["MSFT"].
Proof. split_and!; by_compute. Qed.

Lemma unreadable_shares_reported :
  (add_stock unreadable_shares).1 = Ok tt
  ∧ data_file (add_stock unreadable_shares).2 = data_file unreadable_shares
  ∧ ∃ msg, last (stdout (add_stock unreadable_shares).2) = Some (Text msg)
           ∧ (float_of_str (strip "lots") = None → msg = "Invalid shares.")
           ∧ (float_of_str (strip "lots") ≠ None → msg = "Invalid cost.").
Proof.
  apply (add_stock_reports_unreadable_number unreadable_shares
           [new_row "MSFT" (of_Z 10) (of_Z 50)] "msft" "lots" "80" []);
    [by_compute|reflexivity|reflexivity|by left].
Defined.

(** -2 shares at 10 and 2 more at 100: no shares, still at 10. *)
Lemma short_aapl_keeps_cost :
  (add_stock short_aapl).1 = Ok tt
  ∧ holdings (add_stock short_aapl).2
    = Ok (<[0%nat := {| symbol := "AAPL"; shares := - of_Z 2 + of_Z 2;
                        price := of_Z 10; extra := [] |}]>
            [new_row "AAPL" (- of_Z 2) (of_Z 10)]).
Proof.
  apply (add_stock_keeps_cost_below_zero short_aapl
           [new_row "AAPL" (- of_Z 2) (of_Z 10)]
           "AAPL" "2" "100" ["AAPL"; "3"; "150"] "AAPL" (of_Z 2) (of_Z 100)
           0 (new_row "AAPL" (- of_Z 2) (of_Z 10)));
    [by_compute|reflexivity|repeat split|reflexivity|by_compute|by_compute
    |reflexivity|by_compute].
Defined.

Lemma msft_found_in_any_case :
  find_row [new_row "MSFT" (of_Z 10) (of_Z 50)] " msft "
  = find_row [new_row "MSFT" (of_Z 10) (of_Z 50)] "MSFT".
Proof. apply find_row_ignores_case_and_blanks. reflexivity. Defined.

Lemma msft_found_trimmed :
  [new_row "MSFT" (of_Z 10) (of_Z 50)] !! 0%nat
  = Some (new_row "MSFT" (of_Z 10) (of_Z 50))
  ∧ key (new_row "MSFT" (of_Z 10) (of_Z 50)) = upper (strip " msft ")
  ∧ strip (key (new_row "MSFT" (of_Z 10) (of_Z 50)))
    = key (new_row "MSFT" (of_Z 10) (of_Z 50))
  ∧ ∀ j x, [new_row "MSFT" (of_Z 10) (of_Z 50)] !! j = Some x →
           (j < 0)%nat → key x ≠ key (new_row "MSFT" (of_Z 10) (of_Z 50)).
Proof.
  apply (find_row_never_returns_padded
           [new_row "MSFT" (of_Z 10) (of_Z 50)] " msft ").
  reflexivity.
Defined.

(** The row [" AAPL "] of the data file stays as it is when AAPL is
    entered. *)
Lemma padded_symbol_left_alone :
  ∃ rows',
    holdings (add_stock padded_symbol).2 = Ok rows'
    ∧ rows' !! 0%nat = Some (new_row " AAPL " (of_Z 1) (of_Z 10)).
Proof.
  apply (add_stock_never_changes_padded_rows padded_symbol
           [new_row " AAPL " (of_Z 1) (of_Z 10)]
           "aapl" "1" "30" [] "AAPL" (of_Z 1) (of_Z 30));
    [by_compute|reflexivity|repeat split|reflexivity|by_compute|by_compute
    |reflexivity|discriminate].
Defined.

Lemma msft_only_round_trip :
  holdings (save_portfolio [new_row "MSFT" (of_Z 10) (of_Z 50)] two_lots).2
  = Ok [new_row "MSFT" (of_Z 10) (of_Z 50)].
Proof. apply (load_save_round_trip msft_only two_lots). by_compute. Defined.

Lemma msft_only_loads :
  (∃ rows, holdings msft_only = Ok rows)
  ↔ Forall loadable
      [PDict [("symbol", PStr "MSFT"); ("shares", PNum (of_Z 10));
              ("price", PNum (of_Z 50))]].
Proof. exact (proj1 (load_portfolio_loads_iff msft_only _ eq_refl)). Defined.

Lemma no_file_nothing_held :
  view_portfolio two_lots
  = (Ok tt,
     {| data_file := data_file two_lots; stdin := stdin two_lots;
        stdout := stdout two_lots ++ [Text ""; Text "Portfolio is empty."];
        requests := requests two_lots |}).
Proof. apply view_portfolio_nothing_held. by left. Defined.

Lemma twice_listed_viewed_twice :
  requests (view_portfolio (view_portfolio twice_listed).2).2
  = ["AAPL"; "AAPL"].
Proof.
  rewrite (view_portfolio_twice_asks_twice twice_listed
             [new_row "AAPL" (of_Z 1) (of_Z 10);
              new_row "AAPL" (of_Z 2) (of_Z 20)]); by_compute.
Defined.

Lemma session_comes_to_an_end :
  (main 9 session).1 ≠ Ok None ∧ main 20 session = main 9 session.
Proof. apply main_comes_to_an_end; cbn; lia. Defined.

Lemma viewing_session_keeps_file :
  data_file (main 10 viewing_session).2 = data_file viewing_session.
Proof. apply main_without_add_keeps_file. by_compute. Defined.

Lemma entering_session_asks_nothing :
  requests (main 10 entering_session).2 = requests entering_session.
Proof. apply main_without_view_asks_nothing. by_compute. Defined.

Lemma entering_session_run :
  (main 2 entering_session).1 = Ok (Some tt)
  ∧ stdin (main 2 entering_session).2 = []
  ∧ holdings (main 2 entering_session).2
    = Ok (upserted [new_row "MSFT" (of_Z 10) (of_Z 50)] "MSFT"
            (of_Z 5) (of_Z 80))
  ∧ last (stdout (main 2 entering_session).2) = Some (Text goodbye).
Proof.
  apply (main_add_then_exit 0 entering_session
           [new_row "MSFT" (of_Z 10) (of_Z 50)]
           "1" "msft" "5" "80" "3" [] "MSFT" (of_Z 5) (of_Z 80));
    [by_compute|reflexivity|reflexivity|reflexivity|repeat split|reflexivity
    |by_compute|by_compute].
Defined.
End MoreRuns.

Section Offline.
#[local] Existing Instance offline_runtime.

End Offline.
